(** * PNG sequence renamer: the rename engine

    A shallow embedding of the core of [png_sequence_renamer_gui_v1.0.0.py]:
    [natural_sort_key], the Name sort of [get_png_files], [plan_renames],
    [detect_collisions], [two_phase_rename], [write_log] and [undo_from_log].

    Modelling choices.
    - Python [str] is [string] (one character per byte; the character
      classes [isdigit], [isspace] and [lower] are the ASCII ones).
    - Python [int] is [Z]; [str(int)] is stdpp's decimal printer [pretty].
    - A [pathlib.Path] is its string form; [folder / name] joins with a
      slash, [Path.name] is the part after the last slash, and two paths
      are equal when their strings are (POSIX flavour, normalised paths).
    - The file system is a finite map from paths to files.  [os.rename]
      follows POSIX: it replaces an existing destination.  Calls the
      operating system refuses (permissions and the like) are given by an
      oracle [denied], and [datetime.now()] reads a [clock]; both are
      parameters of the model.
    - Exceptions are values of [exn]; every function that can raise
      returns a [result]. *)

From stdpp Require Import gmap strings list fin_maps sorting pretty.
From Stdlib Require Import Ascii ZArith Lia.

Local Open Scope Z_scope.

(** ** Exceptions and results *)

Inductive exn : Type :=
  | ValueError (msg : string)
  | FileNotFoundError (msg : string)
  | PermissionError
  | KeyError (key : string)
  | TypeError
  | UnicodeDecodeError
  | WrappedException (msg : string) (cause : exn).

Inductive result (A : Type) : Type :=
  | Ok (a : A)
  | Raise (e : exn).
Arguments Ok {A} a.
Arguments Raise {A} e.

(** ** Python string primitives *)

Module Py.

(** [c.isdigit()] on an ASCII character. *)
Definition is_digit (c : ascii) : bool :=
  let n := nat_of_ascii c in (48 <=? n)%nat && (n <=? 57)%nat.

(** [c.isspace()] on an ASCII character: tab, line feed, vertical tab,
    form feed, carriage return, the four separators 28..31, and space. *)
Definition is_space (c : ascii) : bool :=
  let n := nat_of_ascii c in
  ((9 <=? n)%nat && (n <=? 13)%nat) || ((28 <=? n)%nat && (n <=? 32)%nat).

(** [c.lower()] on an ASCII character. *)
Definition lower_char (c : ascii) : ascii :=
  let n := nat_of_ascii c in
  if (65 <=? n)%nat && (n <=? 90)%nat then ascii_of_nat (n + 32) else c.

Fixpoint lower (s : string) : string :=
  match s with
  | EmptyString => EmptyString
  | String c r => String (lower_char c) (lower r)
  end.

Fixpoint lstrip (s : string) : string :=
  match s with
  | EmptyString => EmptyString
  | String c r => if is_space c then lstrip r else s
  end.

(** [rstrip] drops the trailing white space: a character is kept when
    something that is kept follows it, or when it is not white space. *)
Fixpoint rstrip (s : string) : string :=
  match s with
  | EmptyString => EmptyString
  | String c r =>
      match rstrip r with
      | EmptyString => if is_space c then EmptyString else String c EmptyString
      | r' => String c r'
      end
  end.

(** [s.strip()] *)
Definition strip (s : string) : string := rstrip (lstrip s).

(** ["0" * n] *)
Fixpoint zeros (n : nat) : string :=
  match n with
  | O => EmptyString
  | S k => String "0" (zeros k)
  end.

(** [s.zfill(width)]: pad on the left with zeros up to [width]
    characters; a leading sign stays in front of the padding. *)
Definition zfill (s : string) (width : Z) : string :=
  let len := Z.of_nat (String.length s) in
  if width <=? len then s
  else
    let fill := Z.to_nat (width - len) in
    match s with
    | String c r =>
        if (Ascii.eqb c "+" || Ascii.eqb c "-")%bool
        then String c (zeros fill +:+ r)
        else zeros fill +:+ s
    | EmptyString => zeros fill
    end.

(** [str(n)] for an [int]. *)
Definition str (n : Z) : string := pretty n.

(** [s.endswith(suffix)] *)
Fixpoint endswith (s suffix : string) : bool :=
  if String.eqb s suffix then true
  else match s with
       | EmptyString => false
       | String _ r => endswith r suffix
       end.

End Py.

(** ** Paths *)

Abbreviation path := string (only parsing).

(** [folder / name] *)
Definition joinpath (folder : path) (name : string) : path :=
  folder +:+ "/" +:+ name.
Infix "//" := joinpath (at level 40, left associativity).

(** [after_slash s] is [Some] of the text after the last slash of [s],
    and [None] when [s] has no slash. *)
Fixpoint after_slash (s : string) : option string :=
  match s with
  | EmptyString => None
  | String c r =>
      match after_slash r with
      | Some t => Some t
      | None => if Ascii.eqb c "/" then Some r else None
      end
  end.

(** [p.name]: the final component of a path *)
Definition path_name (p : path) : string :=
  match after_slash p with
  | Some t => t
  | None => p
  end.

(** ** Natural sort: [natural_sort_key] and the Name sort *)

(** [re.split(r'(\d+)', text)]: the text is cut at every maximal run of
    digits and the runs themselves are kept, so the result alternates
    text, digits, text, ..., and always starts and ends with a (possibly
    empty) text piece.  [cur] is the piece being read and [in_match] says
    whether it is a run of digits. *)
Fixpoint re_split_digits (s : string) (cur : string) (in_match : bool)
    : list string :=
  match s with
  | EmptyString => if in_match then [cur; ""%string] else [cur]
  | String c r =>
      if Py.is_digit c then
        if in_match then re_split_digits r (cur +:+ String c "") true
        else cur :: re_split_digits r (String c "") true
      else
        if in_match then cur :: re_split_digits r (String c "") false
        else re_split_digits r (cur +:+ String c "") false
  end.

(** One element of a sort key: [int(t)] or [t.lower()]. *)
Inductive chunk : Type :=
  | Num (n : N)
  | Txt (t : string).

Global Instance chunk_eq_dec : EqDecision chunk.
Proof. solve_decision. Defined.

Fixpoint all_digits (s : string) : bool :=
  match s with
  | EmptyString => true
  | String c r => Py.is_digit c && all_digits r
  end.

(** [t.isdigit()]: at least one character, and all of them digits *)
Definition isdigit (t : string) : bool :=
  match t with
  | EmptyString => false
  | _ => all_digits t
  end.

(** [int(t)] for a string of digits, most significant digit first *)
Fixpoint int_of_digits (acc : N) (t : string) : N :=
  match t with
  | EmptyString => acc
  | String c r => int_of_digits (10 * acc + (N.of_nat (nat_of_ascii c) - 48))%N r
  end.

Definition chunk_of (t : string) : chunk :=
  if isdigit t then Num (int_of_digits 0 t) else Txt (Py.lower t).

Definition natural_sort_key (text : string) : list chunk :=
  chunk_of <$> re_split_digits text "" false.

(** [a == b] on key elements: an [int] never equals a [str]. *)
Definition chunk_eqb (a b : chunk) : bool :=
  match a, b with
  | Num m, Num n => (m =? n)%N
  | Txt s, Txt t => String.eqb s t
  | _, _ => false
  end.

(** [a < b] on key elements; [None] is the [TypeError] of comparing an
    [int] with a [str]. *)
Definition chunk_lt (a b : chunk) : option bool :=
  match a, b with
  | Num m, Num n => Some (m <? n)%N
  | Txt s, Txt t => Some (String.ltb s t)
  | _, _ => None
  end.

(** [k1 < k2] on lists: the first pair of unequal elements decides, and a
    proper prefix is smaller. *)
Fixpoint key_lt (k1 k2 : list chunk) : option bool :=
  match k1, k2 with
  | [], [] => Some false
  | [], _ :: _ => Some true
  | _ :: _, [] => Some false
  | a :: r1, b :: r2 => if chunk_eqb a b then key_lt r1 r2 else chunk_lt a b
  end.

(** A key is well formed when text and numbers alternate; [expect_text]
    tells the kind of the first element. *)
Fixpoint alternating (expect_text : bool) (k : list chunk) : bool :=
  match k with
  | [] => true
  | Txt _ :: r => expect_text && alternating false r
  | Num _ :: r => negb expect_text && alternating true r
  end.

(** No character of [s] is a digit. *)
Fixpoint no_digits (s : string) : bool :=
  match s with
  | EmptyString => true
  | String c r => negb (Py.is_digit c) && no_digits r
  end.

(** The order [list.sort] uses on file paths in Name mode.  A comparison
    that would raise is read as [false]; [natural_keys_comparable] below
    shows that sort keys never raise. *)
Definition name_lt (x y : path) : bool :=
  default false
    (key_lt (natural_sort_key (path_name x)) (natural_sort_key (path_name y))).

(** [list.sort] is stable: equal elements keep their order.  A stable
    sort has one possible result; it is computed here by insertion, each
    element going in front of the first element that is not smaller. *)
Fixpoint insert_by (lt : path → path → bool) (x : path) (l : list path)
    : list path :=
  match l with
  | [] => [x]
  | y :: r => if lt y x then y :: insert_by lt x r else x :: l
  end.

Definition stable_sort (lt : path → path → bool) (l : list path) : list path :=
  foldr (insert_by lt) [] l.

(** [y] may stand after [x] in a sorted list: it is not smaller. *)
Definition not_before (lt : path → path → bool) (x y : path) : Prop :=
  lt y x = false.

(** [png_files.sort(key=lambda x: natural_sort_key(x.name))] *)
Definition sort_by_name (png_files : list path) : list path :=
  stable_sort name_lt png_files.


(** ** NameSequencer: [plan_renames] *)

(** The [for i, old_path in enumerate(png_files)] loop; [i] is the index
    of the first file of [png_files]. *)
Fixpoint plan_loop (i : Z) (png_files : list path) (basename : string)
    (start_index zero_padding : Z) (prefix suffix : string)
    : list (path * string) :=
  match png_files with
  | [] => []
  | old_path :: rest =>
      let index := start_index + i in
      let index_str := Py.zfill (Py.str index) zero_padding in
      let new_name := prefix +:+ basename +:+ "_" +:+ index_str +:+ suffix +:+ ".png" in
      (old_path, new_name)
        :: plan_loop (i + 1) rest basename start_index zero_padding prefix suffix
  end.

Definition plan_renames (png_files : list path) (basename : string)
    (start_index zero_padding : Z) (prefix suffix : string)
    : result (list (path * string)) :=
  if String.eqb (Py.strip basename) "" then
    Raise (ValueError "Basename is required")
  else
    match png_files with
    | [] => Ok []
    | _ =>
        let zero_padding :=
          if zero_padding =? 0 then
            let total_files := Z.of_nat (length png_files) in
            let max_index := start_index + total_files - 1 in
            Z.of_nat (String.length (Py.str max_index))
          else zero_padding in
        Ok (plan_loop 0 png_files basename start_index zero_padding prefix suffix)
    end.

(** [int(s)] for an optional minus sign followed by digits *)
Definition parse_int (s : string) : Z :=
  match s with
  | String c r =>
      if Ascii.eqb c "-" then - Z.of_N (int_of_digits 0 r)
      else Z.of_N (int_of_digits 0 s)
  | EmptyString => 0
  end.


(** The number of decimal digits of a natural number, as the spec words
    it: one digit below ten, one more for every further division by ten. *)
Fixpoint num_digits_fuel (fuel : nat) (n : N) : nat :=
  match fuel with
  | O => 1
  | S f => if (n <? 10)%N then 1%nat else S (num_digits_fuel f (n / 10)%N)
  end.

Definition num_digits_N (n : N) : nat :=
  num_digits_fuel (N.to_nat (N.size n)) n.

(** The digits of an integer are those of its absolute value. *)
Definition num_digits (n : Z) : nat := num_digits_N (Z.abs_N n).

(** ** The file system, the clock and the operating system *)

(** A file is either binary data (an image; its bytes are not text) or a
    CSV text file, kept as the rows the [csv] module writes and reads. *)
Inductive file : Type :=
  | Blob (data : nat)
  | Csv (rows : list (list string)).

(** A system call the operating system may refuse. *)
Inductive syscall : Type :=
  | SysRename (src dst : path)
  | SysRemove (p : path)
  | SysOpenRead (p : path)
  | SysOpenWrite (p : path).

(** What a call did to the file system.  [replaced] tells whether the
    rename found another file at its destination and replaced it. *)
Inductive event : Type :=
  | EvRename (src dst : path) (replaced : bool)
  | EvRemove (p : path)
  | EvWrite (p : path).

Record datetime : Type := Datetime {
  year : Z; month : Z; day : Z;
  hour : Z; minute : Z; second : Z; microsecond : Z
}.

(** The state: the files, the number of clock readings made so far, and
    the history of the changes made to the file system (oldest first). *)
Record world : Type := World {
  files : gmap string file;
  ticks : nat;
  history : list event
}.

(** [dt.strftime('%Y%m%d_%H%M%S_%f')] *)
Definition strftime_stamp (dt : datetime) : string :=
  Py.zfill (Py.str (year dt)) 4 +:+ Py.zfill (Py.str (month dt)) 2
    +:+ Py.zfill (Py.str (day dt)) 2 +:+ "_"
    +:+ Py.zfill (Py.str (hour dt)) 2 +:+ Py.zfill (Py.str (minute dt)) 2
    +:+ Py.zfill (Py.str (second dt)) 2 +:+ "_"
    +:+ Py.zfill (Py.str (microsecond dt)) 6.

(** [dt.isoformat()]: the fraction is left out when it is zero. *)
Definition isoformat (dt : datetime) : string :=
  Py.zfill (Py.str (year dt)) 4 +:+ "-" +:+ Py.zfill (Py.str (month dt)) 2
    +:+ "-" +:+ Py.zfill (Py.str (day dt)) 2 +:+ "T"
    +:+ Py.zfill (Py.str (hour dt)) 2 +:+ ":" +:+ Py.zfill (Py.str (minute dt)) 2
    +:+ ":" +:+ Py.zfill (Py.str (second dt)) 2
    +:+ (if microsecond dt =? 0 then ""%string
         else "." +:+ Py.zfill (Py.str (microsecond dt)) 6).

(** [sep in s] *)
Fixpoint contains_char (sep : ascii) (s : string) : bool :=
  match s with
  | EmptyString => false
  | String c r => Ascii.eqb c sep || contains_char sep r
  end.

(** [s.split(sep, maxsplit)] for a one-character separator: at most
    [maxsplit] cuts are made, from the left; what is left is the last
    element. *)
Fixpoint split_char (sep : ascii) (maxsplit : nat) (s : string) : list string :=
  match s with
  | EmptyString => [""%string]
  | String c r =>
      match maxsplit with
      | O => [s]
      | S m =>
          if Ascii.eqb c sep then ""%string :: split_char sep m r
          else match split_char sep maxsplit r with
               | t :: ts => String c t :: ts
               | [] => [String c ""]
               end
      end
  end.

(** [p.exists()] *)
Definition path_exists (p : path) (w : world) : bool :=
  bool_decide (is_Some (files w !! p)).

(** The two kinds of message the detector appends to its list. *)
Inductive collision : Type :=
  | DuplicateTarget (new_name : string)
  | TargetExists (new_name : string).

Definition collision_message (c : collision) : string :=
  match c with
  | DuplicateTarget new_name => "Duplicate target name: " +:+ new_name
  | TargetExists new_name => "Would overwrite existing file: " +:+ new_name
  end.

Global Instance collision_eq_dec : EqDecision collision.
Proof. solve_decision. Defined.

Section Engine.

(** The successive readings of [datetime.now()]. *)
Variable clock : nat → datetime.
(** The calls the operating system refuses with [PermissionError]. *)
Variable denied : syscall → bool.

Definition datetime_now (w : world) : datetime * world :=
  (clock (ticks w),
   {| files := files w; ticks := S (ticks w); history := history w |}).

(** [src.rename(dst)]: fails when [src] is missing or the call is
    refused; otherwise the file moves to [dst], replacing what was
    there. *)
Definition os_rename (src dst : path) (w : world) : result unit * world :=
  match files w !! src with
  | None => (Raise (FileNotFoundError src), w)
  | Some f =>
      if denied (SysRename src dst) then (Raise PermissionError, w)
      else
        (Ok (),
         {| files := <[dst := f]> (delete src (files w));
            ticks := ticks w;
            history := history w ++
              [EvRename src dst
                 (path_exists dst w && negb (String.eqb dst src))] |})
  end.

(** [os.remove(p)] *)
Definition os_remove (p : path) (w : world) : result unit * world :=
  match files w !! p with
  | None => (Raise (FileNotFoundError p), w)
  | Some _ =>
      if denied (SysRemove p) then (Raise PermissionError, w)
      else
        (Ok (),
         {| files := delete p (files w);
            ticks := ticks w;
            history := history w ++ [EvRemove p] |})
  end.

(** ** CollisionDetector: [detect_collisions] *)

(** The loop of [detect_collisions]; [new_names] is the set of names
    seen so far.  The world is threaded through the existence tests and
    returned. *)
Fixpoint detect_loop (renames : list (path * string)) (folder : path)
    (new_names : gset string) (w : world) : list collision * world :=
  match renames with
  | [] => ([], w)
  | (old_path, new_name) :: rest =>
      let new_path := folder // new_name in
      let dup :=
        if bool_decide (new_name ∈ new_names)
        then [DuplicateTarget new_name] else [] in
      let new_names := {[new_name]} ∪ new_names in
      let clash :=
        if path_exists new_path w && negb (String.eqb new_path old_path)
        then [TargetExists new_name] else [] in
      let '(more, w) := detect_loop rest folder new_names w in
      (dup ++ clash ++ more, w)
  end.

Definition detect_collisions (renames : list (path * string))
    (folder : path) (w : world) : list collision * world :=
  detect_loop renames folder ∅ w.

(** ** RenameExecutor: [two_phase_rename] *)

(** [temp_path.name.split('_', 3)[-1] if '_' in temp_path.name
     else temp_path.name] *)
Definition recovered_name (temp_path : path) : string :=
  let name := path_name temp_path in
  if contains_char "_" name
  then List.last (split_char "_" 3 name) name
  else name.

(** Phase 1.  The list [temp_names] grows as files are staged; when a
    rename raises, the loop stops and the handler sees the list as it
    is then. *)
Fixpoint stage_loop (renames : list (path * string)) (folder : path)
    (temp_names : list (path * string)) (w : world)
    : option exn * list (path * string) * world :=
  match renames with
  | [] => (None, temp_names, w)
  | (old_path, new_name) :: rest =>
      if negb (String.eqb (path_name old_path) new_name) then
        let '(now, w) := datetime_now w in
        let temp_name :=
          "temp_" +:+ strftime_stamp now +:+ "_" +:+ path_name old_path in
        let temp_path := folder // temp_name in
        match os_rename old_path temp_path w with
        | (Raise e, w) => (Some e, temp_names, w)
        | (Ok _, w) =>
            stage_loop rest folder (temp_names ++ [(temp_path, new_name)]) w
        end
      else stage_loop rest folder temp_names w
  end.

(** Phase 2. *)
Fixpoint commit_loop (temp_names : list (path * string)) (folder : path)
    (final_renames : list (path * path)) (w : world)
    : result (list (path * path)) * world :=
  match temp_names with
  | [] => (Ok final_renames, w)
  | (temp_path, new_name) :: rest =>
      let new_path := folder // new_name in
      match os_rename temp_path new_path w with
      | (Raise e, w) => (Raise e, w)
      | (Ok _, w) =>
          let original_name := recovered_name temp_path in
          let original_path := folder // original_name in
          commit_loop rest folder
            (final_renames ++ [(original_path, new_path)]) w
      end
  end.

(** The handler: every staged file that is still there is renamed to
    the recovered name; a rename that fails is passed over. *)
Fixpoint rollback_loop (temp_names : list (path * string)) (folder : path)
    (w : world) : world :=
  match temp_names with
  | [] => w
  | (temp_path, _) :: rest =>
      if path_exists temp_path w then
        let original_name := recovered_name temp_path in
        let original_path := folder // original_name in
        let '(_, w) := os_rename temp_path original_path w in
        rollback_loop rest folder w
      else rollback_loop rest folder w
  end.

Definition two_phase_rename (renames : list (path * string)) (folder : path)
    (w : world) : result (list (path * path)) * world :=
  match stage_loop renames folder [] w with
  | (Some e, temp_names, w) => (Raise e, rollback_loop temp_names folder w)
  | (None, temp_names, w) =>
      match commit_loop temp_names folder [] w with
      | (Raise e, w) => (Raise e, rollback_loop temp_names folder w)
      | (Ok final_renames, w) => (Ok final_renames, w)
      end
  end.

(** ** RenameLedger: [write_log] and [undo_from_log] *)

Definition ledger_header : list string :=
  ["old_path"; "new_path"; "timestamp"]%string.

Definition write_log (renames : list (path * path)) (log_file_path : path)
    (w : world) : result unit * world :=
  if denied (SysOpenWrite log_file_path) then
    (Raise (WrappedException "Failed to write log" PermissionError), w)
  else
    let '(now, w) := datetime_now w in
    let timestamp := isoformat now in
    let rows :=
      ledger_header ::
      ((λ '(old_path, new_path), [old_path; new_path; timestamp]) <$> renames) in
    (Ok (),
     {| files := <[log_file_path := Csv rows]> (files w);
        ticks := ticks w;
        history := history w ++ [EvWrite log_file_path] |}).

(** One row of a [csv.DictReader]: the field names are paired with the
    values, a later column of the same name winning; the names left
    over when the row is short get [None]. *)
Definition dict_of_row (fieldnames row : list string)
    : gmap string (option string) :=
  let d := foldl (λ d kv, <[kv.1 := Some kv.2]> d) ∅ (zip fieldnames row) in
  foldl (λ d k, <[k := None]> d) d (drop (length row) fieldnames).

(** [Path(row[key])]: [KeyError] without such a column, [TypeError] on
    [None]. *)
Definition row_path (d : gmap string (option string)) (key : string)
    : result path :=
  match d !! key with
  | None => Raise (KeyError key)
  | Some None => Raise TypeError
  | Some (Some s) => Ok s
  end.

(** [new_path = Path(row['new_path'])] then
    [old_path = Path(row['old_path'])] *)
Definition row_paths (d : gmap string (option string)) : result (path * path) :=
  match row_path d "new_path" with
  | Raise e => Raise e
  | Ok new_path =>
      match row_path d "old_path" with
      | Raise e => Raise e
      | Ok old_path => Ok (new_path, old_path)
      end
  end.

(** The [for row in reader] loop; the reader skips empty rows. *)
Fixpoint undo_loop (fieldnames : list string) (rows : list (list string))
    (undone : list (path * path)) (w : world)
    : result (list (path * path)) * world :=
  match rows with
  | [] => (Ok undone, w)
  | row :: rest =>
      match row with
      | [] => undo_loop fieldnames rest undone w
      | _ =>
          match row_paths (dict_of_row fieldnames row) with
          | Raise e => (Raise e, w)
          | Ok (new_path, old_path) =>
              if path_exists new_path w then
                match os_rename new_path old_path w with
                | (Raise e, w) => (Raise e, w)
                | (Ok _, w) =>
                    undo_loop fieldnames rest
                      (undone ++ [(new_path, old_path)]) w
                end
              else undo_loop fieldnames rest undone w
          end
      end
  end.

(** The body of the [try] of [undo_from_log]. *)
Definition undo_body (log_file_path : path) (w : world)
    : result (list (path * path)) * world :=
  if denied (SysOpenRead log_file_path) then (Raise PermissionError, w)
  else
    match files w !! log_file_path with
    | None => (Raise (FileNotFoundError log_file_path), w)
    | Some (Blob _) => (Raise UnicodeDecodeError, w)
    | Some (Csv rows) =>
        let looped :=
          match rows with
          | [] => (Ok [], w)
          | fieldnames :: records => undo_loop fieldnames records [] w
          end in
        match looped with
        | (Raise e, w) => (Raise e, w)
        | (Ok undone, w) =>
            match os_remove log_file_path w with
            | (Raise e, w) => (Raise e, w)
            | (Ok _, w) => (Ok undone, w)
            end
        end
    end.

Definition undo_from_log (log_file_path : path) (w : world)
    : result (list (path * path)) * world :=
  if negb (path_exists log_file_path w) then
    (Raise (FileNotFoundError "Log file not found"), w)
  else
    match undo_body log_file_path w with
    | (Raise e, w) => (Raise (WrappedException "Failed to undo renames" e), w)
    | (Ok undone, w) => (Ok undone, w)
    end.

(** The batch as the application runs it: execute the plan, write the
    ledger, undo from the ledger. *)
Definition rename_then_undo (renames : list (path * string)) (folder : path)
    (log_file_path : path) (w : world) : result (list (path * path)) * world :=
  match two_phase_rename renames folder w with
  | (Raise e, w) => (Raise e, w)
  | (Ok completed_renames, w) =>
      match write_log completed_renames log_file_path w with
      | (Raise e, w) => (Raise e, w)
      | (Ok _, w) => undo_from_log log_file_path w
      end
  end.

End Engine.

(** ** The collisions of a plan, entry by entry *)




(** ** The undo of a ledger, as the spec words it *)

(** The records [(final, original)] are read in file order; a record
    whose final path exists is renamed back and reported, a record whose
    final path is missing is skipped. *)
Inductive undo_replay
    : gmap string file → list (path * path) → list (path * path)
      → gmap string file → Prop :=
  | undo_replay_nil m : undo_replay m [] [] m
  | undo_replay_skip m final original records undone m' :
      m !! final = None →
      undo_replay m records undone m' →
      undo_replay m ((final, original) :: records) undone m'
  | undo_replay_back m final original f records undone m' :
      m !! final = Some f →
      undo_replay (<[original := f]> (delete final m)) records undone m' →
      undo_replay m ((final, original) :: records)
        ((final, original) :: undone) m'.

(** The event is a rename. *)
Definition is_rename (ev : event) : Prop :=
  match ev with
  | EvRename _ _ _ => True
  | _ => False
  end.


(** ** Concrete worlds for the examples *)

(** A clock that advances one microsecond per reading. *)
Definition clock_tick (n : nat) : datetime :=
  Datetime 2024 1 2 3 4 5 (Z.of_nat n).

(** An operating system that refuses nothing. *)
Definition allow_all (c : syscall) : bool := false.

(** An operating system that refuses to rename one given file. *)
Definition deny_rename_of (p : path) (c : syscall) : bool :=
  match c with
  | SysRename src _ => String.eqb src p
  | _ => false
  end.

(** A folder [d] with the two images [a.png] and [b.png]. *)
Definition two_images : world :=
  World (<["d/a.png"%string := Blob 1]> (<["d/b.png"%string := Blob 2]> ∅)) 0 [].

(** ** Further definitions, for the properties beyond the claims *)

(** ["".join(pieces)] *)
Definition join_pieces (pieces : list string) : string :=
  foldr String.append ""%string pieces.

(** The pieces of a split alternate between text without digits and
    non-empty runs of digits; [expect_text] tells the kind of the first
    piece. *)
Fixpoint pieces_alternate (expect_text : bool) (pieces : list string) : bool :=
  match pieces with
  | [] => true
  | t :: r =>
      (if expect_text then no_digits t else isdigit t)
      && pieces_alternate (negb expect_text) r
  end.

(** ** The listing: [get_png_files] *)

(** [s.rfind(c)]: the position of the last [c] of [s], or [-1]. *)
Fixpoint rfind (c : ascii) (s : string) : Z :=
  match s with
  | EmptyString => -1
  | String a r =>
      let i := rfind c r in
      if 0 <=? i then i + 1
      else if Ascii.eqb a c then 0 else -1
  end.

(** [s[i:]] for [0 <= i] *)
Fixpoint drop_chars (i : nat) (s : string) : string :=
  match i, s with
  | S k, String _ r => drop_chars k r
  | _, _ => s
  end.

(** [p.suffix] as [pathlib] computes it (CPython up to 3.13):
    [i = name.rfind('.')], then [name[i:]] if [0 < i < len(name) - 1]
    and the empty string otherwise. *)
Definition path_suffix (p : path) : string :=
  let name := path_name p in
  let i := rfind "." name in
  if (0 <? i) && (i <? Z.of_nat (String.length name) - 1)
  then drop_chars (Z.to_nat i) name
  else ""%string.

(** What [get_png_files] asks the operating system about the folder:
    whether it exists and is a directory, the names [iterdir] yields, in
    the order the system gives them, which paths are regular files, and
    the time stamps [stat] reports.  Time stamps are numbers, ordered as
    the floats Python compares. *)
Record folder_view : Type := FolderView {
  folder_exists : bool;
  folder_is_dir : bool;
  iterdir : result (list string);
  is_file : path → bool;
  st_mtime : path → result Z;
  st_ctime : path → result Z
}.

(** [file_path.is_file() and file_path.suffix.lower() == '.png'] *)
Definition is_png_file (v : folder_view) (file_path : path) : bool :=
  is_file v file_path && String.eqb (Py.lower (path_suffix file_path)) ".png".

(** The keys of a sort are computed first, one call per element, in list
    order; the first call that raises ends the sort. *)
Fixpoint sort_keys (key : path → result Z) (l : list path)
    : result (list Z) :=
  match l with
  | [] => Ok []
  | x :: r =>
      match key x with
      | Raise e => Raise e
      | Ok k =>
          match sort_keys key r with
          | Raise e => Raise e
          | Ok ks => Ok (k :: ks)
          end
      end
  end.

(** The order of two files by a time stamp. *)
Definition time_lt (key : path → result Z) (x y : path) : bool :=
  match key x, key y with
  | Ok a, Ok b => a <? b
  | _, _ => false
  end.

(** [png_files.sort(key=lambda x: x.stat().st_mtime)] and the same with
    [st_ctime]: a stable sort by the time stamp, unless [stat] raises. *)
Definition sort_by_time (key : path → result Z) (png_files : list path)
    : result (list path) :=
  match sort_keys key png_files with
  | Raise e => Raise e
  | Ok _ => Ok (stable_sort (time_lt key) png_files)
  end.

(** [get_png_files(folder_path, sort_mode)]; every exception ends in the
    empty list. *)
Definition get_png_files (v : folder_view) (folder_path : path)
    (sort_mode : string) : list path :=
  if negb (folder_exists v) || negb (folder_is_dir v) then []
  else
    match iterdir v with
    | Raise _ => []
    | Ok names =>
        let png_files :=
          List.filter (is_png_file v) ((λ name, folder_path // name) <$> names) in
        if String.eqb sort_mode "Name" then sort_by_name png_files
        else if String.eqb sort_mode "Modified" then
          match sort_by_time (st_mtime v) png_files with
          | Ok sorted => sorted
          | Raise _ => []
          end
        else if String.eqb sort_mode "Created" then
          match sort_by_time (st_ctime v) png_files with
          | Ok sorted => sorted
          | Raise _ => []
          end
        else png_files
    end.

(** A folder [d] listing [b.PNG], [notes.txt], [.png], [a.png] and the
    directory [old.png], with [b.PNG] modified before [a.png]. *)
Definition sample_folder : folder_view :=
  {| folder_exists := true;
     folder_is_dir := true;
     iterdir := Ok ["b.PNG"; "notes.txt"; ".png"; "a.png"; "old.png"]%string;
     is_file := λ p, negb (String.eqb p "d/old.png");
     st_mtime := λ p, if String.eqb p "d/b.PNG" then Ok 10 else Ok 20;
     st_ctime := λ p, if String.eqb p "d/a.png" then Raise PermissionError
                      else Ok 5 |}.

(** The file has the time stamp [t]. *)
Definition stamped (key : path → result Z) (t : Z) (p : path) : bool :=
  match key p with
  | Ok a => a =? t
  | Raise _ => false
  end.

(** The time stamp a sort mode reads, for the two modes that read one. *)
Definition time_key (v : folder_view) (sort_mode : string)
    : option (path → result Z) :=
  if String.eqb sort_mode "Modified" then Some (st_mtime v)
  else if String.eqb sort_mode "Created" then Some (st_ctime v)
  else None.


(** ** UpdateChecker *)

(** [__version__] *)
Definition version : string := "1.0.0".

(** [s.lstrip(c)] for a one-character argument: every leading [c] goes. *)
Fixpoint lstrip_char (c : ascii) (s : string) : string :=
  match s with
  | EmptyString => EmptyString
  | String a r => if Ascii.eqb a c then lstrip_char c r else s
  end.

(** What [check_for_updates] reads of the release the server describes:
    the tag, the download addresses of the assets and the notes, if
    any. *)
Record release : Type := Release {
  tag_name : string;
  assets : list string;
  body : option string
}.

(** The dictionary [check_for_updates] returns. *)
Inductive update_info : Type :=
  | UpdateInfo (available : bool) (latest_version : string)
      (download_url : option string) (release_notes : string)
  | UpdateError (error : exn).

(** [update_info.get('available')], which is [False] in the dictionary of
    a failed check. *)
Definition available (info : update_info) : bool :=
  match info with
  | UpdateInfo a _ _ _ => a
  | UpdateError _ => false
  end.

(** [check_for_updates()]; [response] is the decoded answer of the
    server, or the exception raised on the way to it. *)
Definition check_for_updates (response : result release) : update_info :=
  match response with
  | Raise e => UpdateError e
  | Ok data =>
      let latest_version := lstrip_char "v" (tag_name data) in
      let download_url := head (assets data) in
      UpdateInfo (negb (String.eqb latest_version version)) latest_version
        download_url
        (default "No release notes available."%string (body data))
  end.

(** [progress_hook(block_num, block_size, total_size)] of
    [download_update]: the percentage passed to the callback, if the
    callback is called; [callback] tells whether one was given. *)
Definition progress_hook (callback : bool) (block_num block_size total_size : Z)
    : option Z :=
  if callback && (0 <? total_size)
  then Some (Z.min 100 ((block_num * block_size * 100) / total_size))
  else None.

(** [n] times the character [c]. *)
Fixpoint repeat_char (c : ascii) (n : nat) : string :=
  match n with
  | O => EmptyString
  | S k => String c (repeat_char c k)
  end.

(** ** The application: [PNGRenamerGUI] *)

Module PNGRenamerGUI.

(** What a method tells the user, in a dialog or in the status bar. *)
Inductive notice : Type :=
  (** "Please select a folder first." *)
  | SelectFolderFirst
  (** "Basename is required." *)
  | BasenameRequired
  (** "No PNG files found in selected folder." *)
  | NoPngFilesFound
  (** "Naming collisions detected:" with the first ten messages, and the
      number of the messages left out *)
  | CollisionError (shown : list string) (more : nat)
  (** "Preview ready: n files to rename" *)
  | PreviewReady (count : nat)
  (** "Preview failed: e" *)
  | PreviewFailed (e : exn)
  (** "No renames planned. Click Preview first." *)
  | NoRenamesPlanned
  (** "Renamed n files successfully!" *)
  | RenameSucceeded (count : nat)
  (** "Rename failed: e" *)
  | RenameFailed (e : exn)
  (** "No undo log found. Cannot undo." *)
  | NoUndoLog
  (** "Successfully undone n renames" *)
  | UndoSucceeded (count : nat)
  (** "Undo failed: e" *)
  | UndoFailed (e : exn).

(** The fields of the object the three buttons read and write.  The two
    [IntVar]s raise when their entry holds no integer; [preview_tree]
    holds the rows of the preview, the current and the new name of each
    file. *)
Record app : Type := App {
  folder_path : string;
  basename : string;
  start_index : result Z;
  zero_padding : result Z;
  prefix : string;
  suffix : string;
  sort_mode : string;
  current_renames : list (path * string);
  log_file_path : string;
  preview_tree : list (string * string)
}.

(** [self.current_renames = renames] *)
Definition set_current_renames (s : app) (renames : list (path * string))
    : app :=
  {| folder_path := folder_path s; basename := basename s;
     start_index := start_index s; zero_padding := zero_padding s;
     prefix := prefix s; suffix := suffix s; sort_mode := sort_mode s;
     current_renames := renames;
     log_file_path := log_file_path s; preview_tree := preview_tree s |}.

(** [self.log_file_path = p] *)
Definition set_log_file_path (s : app) (p : string) : app :=
  {| folder_path := folder_path s; basename := basename s;
     start_index := start_index s; zero_padding := zero_padding s;
     prefix := prefix s; suffix := suffix s; sort_mode := sort_mode s;
     current_renames := current_renames s;
     log_file_path := p; preview_tree := preview_tree s |}.

(** The rows of the preview are replaced. *)
Definition set_preview_tree (s : app) (rows : list (string * string)) : app :=
  {| folder_path := folder_path s; basename := basename s;
     start_index := start_index s; zero_padding := zero_padding s;
     prefix := prefix s; suffix := suffix s; sort_mode := sort_mode s;
     current_renames := current_renames s;
     log_file_path := log_file_path s; preview_tree := rows |}.

(** [self.folder_path.set(folder)] *)
Definition set_folder_path (s : app) (folder : string) : app :=
  {| folder_path := folder; basename := basename s;
     start_index := start_index s; zero_padding := zero_padding s;
     prefix := prefix s; suffix := suffix s; sort_mode := sort_mode s;
     current_renames := current_renames s;
     log_file_path := log_file_path s; preview_tree := preview_tree s |}.

(** [os.path.join(folder, name)] for a relative [name], with the POSIX
    separator. *)
Definition os_path_join (folder name : string) : string :=
  if String.eqb folder "" then name
  else if Py.endswith folder "/" then folder +:+ name
  else folder +:+ "/" +:+ name.

(** [browse_folder]; [folder] is the answer of the dialog, empty when the
    user cancels. *)
Definition browse_folder (folder : string) (s : app) : app :=
  if String.eqb folder "" then s else set_folder_path s folder.

(** [preview_renames]; [v] and [w] are what the folder shows to the
    listing and to the collision check. *)
Definition preview_renames (v : folder_view) (s : app) (w : world)
    : app * notice :=
  let s := set_preview_tree s [] in
  if String.eqb (folder_path s) "" then (s, SelectFolderFirst)
  else if String.eqb (Py.strip (basename s)) "" then (s, BasenameRequired)
  else
    let png_files := get_png_files v (folder_path s) (sort_mode s) in
    match png_files with
    | [] => (s, NoPngFilesFound)
    | _ =>
        match start_index s with
        | Raise e => (s, PreviewFailed e)
        | Ok start =>
            match zero_padding s with
            | Raise e => (s, PreviewFailed e)
            | Ok padding =>
                match plan_renames png_files (Py.strip (basename s)) start
                        padding (prefix s) (suffix s) with
                | Raise e => (s, PreviewFailed e)
                | Ok renames =>
                    let s := set_current_renames s renames in
                    let '(collisions, _) :=
                      detect_collisions (current_renames s) (folder_path s) w in
                    match collisions with
                    | _ :: _ =>
                        (s, CollisionError
                              (take 10 (collision_message <$> collisions))
                              (length collisions - 10))
                    | [] =>
                        (set_preview_tree s
                           ((λ '(old_path, new_name),
                               (path_name old_path, new_name))
                              <$> current_renames s),
                         PreviewReady (length (current_renames s)))
                    end
                end
            end
        end
    end.

(** The [try] block of [execute_renames]. *)
Definition execute_body (clock : nat → datetime) (denied : syscall → bool)
    (s : app) (w : world) : app * world * option notice :=
  match two_phase_rename clock denied (current_renames s) (folder_path s) w with
  | (Raise e, w) => (s, w, Some (RenameFailed e))
  | (Ok completed_renames, w) =>
      let s :=
        set_log_file_path s (os_path_join (folder_path s) "rename_log.csv") in
      match write_log clock denied completed_renames (log_file_path s) w with
      | (Raise e, w) => (s, w, Some (RenameFailed e))
      | (Ok _, w) =>
          (set_current_renames (set_preview_tree s []) [], w,
           Some (RenameSucceeded (length completed_renames)))
      end
  end.

(** [execute_renames]; [confirm] is the answer to "Are you sure you want
    to rename n files?". *)
Definition execute_renames (clock : nat → datetime) (denied : syscall → bool)
    (confirm : bool) (s : app) (w : world) : app * world * option notice :=
  match current_renames s with
  | [] => (s, w, Some NoRenamesPlanned)
  | _ =>
      if negb confirm then (s, w, None)
      else execute_body clock denied s w
  end.

(** [undo_renames]; [confirm] is the answer to "Are you sure you want to
    undo the last rename operation?". *)
Definition undo_renames (denied : syscall → bool) (confirm : bool) (s : app)
    (w : world) : app * world * option notice :=
  let log_path := os_path_join (folder_path s) "rename_log.csv" in
  if negb (path_exists log_path w) then (s, w, Some NoUndoLog)
  else if negb confirm then (s, w, None)
  else
    match undo_from_log denied log_path w with
    | (Ok undone_files, w) => (s, w, Some (UndoSucceeded (length undone_files)))
    | (Raise e, w) => (s, w, Some (UndoFailed e))
    end.

(** The application as it starts, with a folder chosen. *)
Definition started (folder : string) : app :=
  {| folder_path := folder; basename := "frame";
     start_index := Ok 1; zero_padding := Ok 0;
     prefix := ""; suffix := ""; sort_mode := "Name";
     current_renames := []; log_file_path := ""; preview_tree := [] |}.

End PNGRenamerGUI.

(** A folder [d] listing [a.png] and [frame_1.png]. *)
Definition renumbered_folder : folder_view :=
  {| folder_exists := true;
     folder_is_dir := true;
     iterdir := Ok ["frame_1.png"; "a.png"]%string;
     is_file := λ _, true;
     st_mtime := λ _, Ok 0;
     st_ctime := λ _, Ok 0 |}.

(** The files of that folder. *)
Definition renumbered_files : world :=
  World (<["d/a.png"%string := Blob 1]>
           (<["d/frame_1.png"%string := Blob 2]> ∅)) 0 [].

(** The folder [d] of [two_images], as the listing sees it. *)
Definition two_images_view : folder_view :=
  {| folder_exists := true;
     folder_is_dir := true;
     iterdir := Ok ["b.png"; "a.png"]%string;
     is_file := λ _, true;
     st_mtime := λ _, Ok 0;
     st_ctime := λ _, Ok 0 |}.

(** The temporary paths phase 1 of [two_phase_rename] gives to the files
    it stages, [sources] being their paths in plan order and [n] the
    number of clock readings made before: one reading per staged file. *)
Fixpoint temp_paths (clock : nat → datetime) (folder : path) (n : nat)
    (sources : list path) : list path :=
  match sources with
  | [] => []
  | old_path :: rest =>
      folder // ("temp_" +:+ strftime_stamp (clock n) +:+ "_"
                 +:+ path_name old_path)
      :: temp_paths clock folder (S n) rest
  end.

(** * Properties *)

(** ** Strings *)

Lemma string_app_cons (c : ascii) (s t : string) :
  String c s +:+ t = String c (s +:+ t).
Proof. reflexivity. Qed.

Lemma string_app_nil_l (t : string) : "" +:+ t = t.
Proof. reflexivity. Qed.

Lemma string_app_nil_r (s : string) : s +:+ "" = s.
Proof. induction s as [|c s IH]; [done|]. by rewrite string_app_cons, IH. Qed.

Lemma string_length_app (s t : string) :
  String.length (s +:+ t) = (String.length s + String.length t)%nat.
Proof.
  induction s as [|c s IH]; [done|].
  rewrite string_app_cons. simpl. by rewrite IH.
Qed.

Lemma string_app_assoc (a b c : string) : (a +:+ b) +:+ c = a +:+ (b +:+ c).
Proof.
  induction a as [|x a IH]; [done|]. by rewrite !string_app_cons, IH.
Qed.

Lemma string_app_inv_tail (s1 s2 t : string) :
  s1 +:+ t = s2 +:+ t → s1 = s2.
Proof.
  revert s2. induction s1 as [|c s1 IH]; intros [|d s2] H.
  - reflexivity.
  - apply (f_equal String.length) in H.
    rewrite string_app_nil_l, string_app_cons in H. simpl in H.
    rewrite string_length_app in H. lia.
  - apply (f_equal String.length) in H.
    rewrite string_app_nil_l, string_app_cons in H. simpl in H.
    rewrite string_length_app in H. lia.
  - rewrite !string_app_cons in H. injection H as -> H.
    f_equal. by apply IH.
Qed.

Lemma endswith_cons (c : ascii) (s suffix : string) :
  Py.endswith (String c s) suffix =
  if String.eqb (String c s) suffix then true else Py.endswith s suffix.
Proof. reflexivity. Qed.

Lemma endswith_refl (s : string) : Py.endswith s s = true.
Proof.
  destruct s as [|c s]; [done|]. by rewrite endswith_cons, String.eqb_refl.
Qed.

Lemma endswith_app (p suffix : string) : Py.endswith (p +:+ suffix) suffix = true.
Proof.
  induction p as [|c p IH].
  - rewrite string_app_nil_l. apply endswith_refl.
  - rewrite string_app_cons, endswith_cons, IH.
    by destruct (String.eqb _ suffix).
Qed.

Lemma endswith_spec (s suffix : string) :
  Py.endswith s suffix = true ↔ ∃ p, s = p +:+ suffix.
Proof.
  split.
  - induction s as [|c s IH].
    + destruct suffix; [intros _; by exists ""%string | done].
    + rewrite endswith_cons.
      destruct (String.eqb (String c s) suffix) eqn:E.
      * apply String.eqb_eq in E as <-. by exists ""%string.
      * intros [p ->]%IH. by exists (String c p).
  - intros [p ->]. apply endswith_app.
Qed.

(** ** Decimal digits *)

Lemma num_digits_fuel_enough (f1 f2 : nat) (n : N) :
  (n < 2 ^ N.of_nat f1)%N → (n < 2 ^ N.of_nat f2)%N →
  num_digits_fuel f1 n = num_digits_fuel f2 n.
Proof.
  revert f2 n. induction f1 as [|f1 IH]; intros [|f2] n H1 H2; simpl.
  - done.
  - change (2 ^ N.of_nat 0)%N with 1%N in H1.
    assert (n = 0%N) as -> by lia. done.
  - change (2 ^ N.of_nat 0)%N with 1%N in H2.
    assert (n = 0%N) as -> by lia. done.
  - destruct (n <? 10)%N eqn:E; [done|]. f_equal.
    apply N.ltb_ge in E.
    rewrite Nat2N.inj_succ, N.pow_succ_r' in H1, H2.
    apply IH; apply N.Div0.div_lt_upper_bound; lia.
Qed.

Lemma num_digits_N_small (n : N) : (n < 10)%N → num_digits_N n = 1%nat.
Proof.
  intros H. unfold num_digits_N.
  destruct (N.to_nat (N.size n)); simpl; [done|].
  by apply N.ltb_lt in H as ->.
Qed.

Lemma num_digits_N_step (n : N) :
  (10 ≤ n)%N → num_digits_N n = S (num_digits_N (n / 10)).
Proof.
  intros H. unfold num_digits_N.
  pose proof (N.size_gt n) as Hn.
  destruct (N.to_nat (N.size n)) as [|f] eqn:Ef.
  { assert (N.size n = 0%N) as Hz by lia. rewrite Hz in Hn. simpl in Hn. lia. }
  simpl. apply N.ltb_ge in H as Hlt. rewrite Hlt. f_equal.
  apply num_digits_fuel_enough.
  - apply N.Div0.div_lt_upper_bound.
    assert (N.size n = N.succ (N.of_nat f)) as Hs by lia.
    rewrite Hs, N.pow_succ_r' in Hn. lia.
  - rewrite N2Nat.id. apply N.size_gt.
Qed.

Lemma num_digits_N_pos (n : N) : (1 ≤ num_digits_N n)%nat.
Proof.
  destruct (decide (n < 10)%N).
  - by rewrite num_digits_N_small.
  - rewrite num_digits_N_step by lia. lia.
Qed.

(** The number of digits is characterised by the powers of ten. *)
Lemma num_digits_N_bounds (n : N) :
  (0 < n)%N →
  (10 ^ N.of_nat (num_digits_N n - 1) ≤ n < 10 ^ N.of_nat (num_digits_N n))%N.
Proof.
  induction (N.lt_wf_0 n) as [n _ IH]. intros Hpos.
  destruct (decide (n < 10)%N) as [Hs|Hb].
  - rewrite num_digits_N_small by done. simpl. lia.
  - rewrite num_digits_N_step by lia.
    destruct (IH (n / 10)%N) as [Hlo Hhi].
    { apply N.div_lt; lia. }
    { apply N.div_str_pos; lia. }
    pose proof (num_digits_N_pos (n / 10)) as Hd.
    replace (S (num_digits_N (n / 10)) - 1)%nat
      with (S (num_digits_N (n / 10) - 1)) by lia.
    rewrite !Nat2N.inj_succ, !N.pow_succ_r'.
    pose proof (N.div_mod n 10 ltac:(lia)) as Hdm.
    pose proof (N.mod_lt n 10 ltac:(lia)) as Hm.
    revert Hlo Hhi Hdm Hm.
    generalize (10 ^ N.of_nat (num_digits_N (n / 10) - 1))%N.
    generalize (10 ^ N.of_nat (num_digits_N (n / 10)))%N.
    generalize (n / 10)%N (n mod 10)%N.
    intros q m A B; lia.
Qed.

Lemma num_digits_N_mono (a b : N) :
  (a ≤ b)%N → (num_digits_N a ≤ num_digits_N b)%nat.
Proof.
  revert b. induction (N.lt_wf_0 a) as [a _ IH]. intros b Hab.
  destruct (decide (a < 10)%N) as [Hs|Hb].
  - rewrite (num_digits_N_small a) by done. apply num_digits_N_pos.
  - rewrite (num_digits_N_step a), (num_digits_N_step b) by lia.
    apply le_n_S, IH.
    + apply N.div_lt; lia.
    + apply N.Div0.div_le_mono; lia.
Qed.

Lemma pretty_N_go_length (x : N) (s : string) :
  (0 < x)%N →
  String.length (pretty_N_go x s) = (num_digits_N x + String.length s)%nat.
Proof.
  revert s. induction (N.lt_wf_0 x) as [x _ IH]. intros s Hpos.
  rewrite pretty_N_go_step by done.
  destruct (decide (x < 10)%N) as [Hs|Hb].
  - rewrite N.div_small by done. rewrite pretty_N_go_0.
    by rewrite num_digits_N_small.
  - rewrite IH.
    + rewrite (num_digits_N_step x) by lia. simpl. lia.
    + apply N.div_lt; lia.
    + apply N.div_str_pos; lia.
Qed.

(** [len(str(n))] counts the digits, and the sign of a negative number. *)
Lemma str_length (n : Z) :
  String.length (Py.str n) =
  ((if (n <? 0)%Z then 1 else 0) + num_digits n)%nat.
Proof.
  unfold Py.str, num_digits, pretty, pretty_Z.
  destruct n as [|p|p]; simpl.
  - done.
  - unfold pretty, pretty_positive, pretty, pretty_N.
    rewrite decide_False by lia. rewrite pretty_N_go_length by lia.
    simpl. lia.
  - rewrite string_app_nil_l. f_equal.
    unfold pretty, pretty_positive, pretty, pretty_N.
    rewrite decide_False by lia. rewrite pretty_N_go_length by lia.
    simpl. lia.
Qed.

(** ** Decimal numerals: [str], [zfill] and [int] *)

Lemma pretty_N_char_value (d : N) :
  (d < 10)%N → (N.of_nat (nat_of_ascii (pretty_N_char d)) - 48)%N = d.
Proof.
  intros H.
  assert (d = 0 ∨ d = 1 ∨ d = 2 ∨ d = 3 ∨ d = 4 ∨ d = 5 ∨ d = 6 ∨ d = 7
          ∨ d = 8 ∨ d = 9)%N as Hd by lia.
  repeat (destruct Hd as [-> | Hd]; [reflexivity|]). by subst.
Qed.

Lemma pretty_N_char_not_sign (d : N) :
  Ascii.eqb (pretty_N_char d) "+" = false ∧ Ascii.eqb (pretty_N_char d) "-" = false.
Proof. unfold pretty_N_char. by repeat case_match. Qed.

Lemma pretty_N_go_head (x : N) (s : string) :
  (0 < x)%N → ∃ d r, pretty_N_go x s = String (pretty_N_char d) r.
Proof.
  revert s. induction (N.lt_wf_0 x) as [x _ IH]. intros s Hpos.
  rewrite pretty_N_go_step by done.
  destruct (decide (x / 10 = 0)%N) as [->|Hq].
  - rewrite pretty_N_go_0. eauto.
  - apply IH; [apply N.div_lt; lia | by apply N.neq_0_lt_0].
Qed.

Lemma int_of_digits_pretty (x : N) :
  ∃ k, ∀ acc s,
    int_of_digits acc (pretty_N_go x s) = int_of_digits (acc * k + x)%N s.
Proof.
  induction (N.lt_wf_0 x) as [x _ IH].
  destruct (decide (x = 0)%N) as [->|Hx].
  - exists 1%N. intros acc s. rewrite pretty_N_go_0. f_equal. lia.
  - destruct (IH (x / 10)%N) as [k Hk]; [apply N.div_lt; lia|].
    exists (10 * k)%N. intros acc s.
    rewrite pretty_N_go_step by lia. rewrite Hk. simpl.
    rewrite pretty_N_char_value by (apply N.mod_lt; lia). f_equal.
    pose proof (N.div_mod x 10 ltac:(lia)) as Hdm. revert Hdm.
    generalize (x / 10)%N (x mod 10)%N. intros q m ?. lia.
Qed.

Lemma int_of_digits_zeros (k : nat) (s : string) :
  int_of_digits 0 (Py.zeros k +:+ s) = int_of_digits 0 s.
Proof. induction k as [|k IH]; [done|]. exact IH. Qed.

Lemma int_of_digits_str (p : positive) :
  int_of_digits 0 (pretty p) = N.pos p.
Proof.
  unfold pretty, pretty_positive, pretty, pretty_N.
  rewrite decide_False by lia.
  destruct (int_of_digits_pretty (N.pos p)) as [k ->]. simpl. lia.
Qed.

Lemma str_pos_head (p : positive) :
  ∃ d r, pretty p = String (pretty_N_char d) r.
Proof.
  unfold pretty, pretty_positive, pretty, pretty_N.
  rewrite decide_False by lia. apply pretty_N_go_head. lia.
Qed.

(** Reading a numeral back gives the number: [int(str(n)) == n]. *)
Lemma parse_int_str (n : Z) : parse_int (Py.str n) = n.
Proof.
  unfold Py.str, pretty, pretty_Z. destruct n as [|p|p].
  - reflexivity.
  - destruct (str_pos_head p) as (d & r & E).
    unfold parse_int. rewrite E.
    destruct (pretty_N_char_not_sign d) as [_ ->].
    rewrite <- E, int_of_digits_str. lia.
  - rewrite string_app_cons, string_app_nil_l. unfold parse_int.
    rewrite Ascii.eqb_refl, int_of_digits_str. lia.
Qed.

Lemma zfill_unsigned (c : ascii) (r : string) (width : Z) :
  Ascii.eqb c "+" = false → Ascii.eqb c "-" = false →
  ∃ k, Py.zfill (String c r) width = Py.zeros k +:+ String c r.
Proof.
  intros Hp Hm. unfold Py.zfill. case_match.
  - by exists 0%nat.
  - rewrite Hp, Hm. simpl. eauto.
Qed.

Lemma zfill_signed (r : string) (width : Z) :
  ∃ k, Py.zfill (String "-" r) width = String "-" (Py.zeros k +:+ r).
Proof.
  unfold Py.zfill. case_match.
  - by exists 0%nat.
  - simpl. eauto.
Qed.

Lemma parse_int_zeros_unsigned (k : nat) (c : ascii) (r : string) :
  Ascii.eqb c "-" = false →
  parse_int (Py.zeros k +:+ String c r) = Z.of_N (int_of_digits 0 (String c r)).
Proof.
  intros Hm. destruct k as [|k].
  - rewrite string_app_nil_l. unfold parse_int. by rewrite Hm.
  - change (Py.zeros (S k) +:+ String c r)
      with (String "0" (Py.zeros k +:+ String c r)).
    unfold parse_int.
    change (Ascii.eqb "0" "-") with false. cbv iota.
    change (String "0" (Py.zeros k +:+ String c r))
      with (Py.zeros (S k) +:+ String c r).
    by rewrite int_of_digits_zeros.
Qed.

(** Padding does not change the number. *)
Lemma parse_int_zfill (n width : Z) : parse_int (Py.zfill (Py.str n) width) = n.
Proof.
  assert (∀ c r, Py.str n = String c r →
            Ascii.eqb c "+" = false → Ascii.eqb c "-" = false →
            parse_int (Py.zfill (Py.str n) width) = n) as Hunsigned.
  { intros c r E Hp Hm.
    destruct (zfill_unsigned c r width Hp Hm) as [k Hk].
    rewrite E, Hk, parse_int_zeros_unsigned by done.
    rewrite <- (parse_int_str n) at 1. rewrite E. unfold parse_int.
    by rewrite Hm. }
  destruct n as [|p|p].
  - by apply (Hunsigned "0"%char ""%string).
  - destruct (str_pos_head p) as (d & r & E).
    destruct (pretty_N_char_not_sign d) as [Hp Hm].
    by apply (Hunsigned (pretty_N_char d) r).
  - unfold Py.str, pretty, pretty_Z.
    rewrite string_app_cons, string_app_nil_l.
    destruct (zfill_signed (pretty p) width) as [k ->].
    unfold parse_int. rewrite Ascii.eqb_refl.
    rewrite int_of_digits_zeros, int_of_digits_str. lia.
Qed.

Lemma zfill_str_inj (a b width : Z) :
  Py.zfill (Py.str a) width = Py.zfill (Py.str b) width → a = b.
Proof.
  intros H. apply (f_equal parse_int) in H. by rewrite !parse_int_zfill in H.
Qed.



(** ** NameSequencer *)



Lemma plan_loop_targets i files basename start width prefix suffix name :
  name ∈ (plan_loop i files basename start width prefix suffix).*2 →
  ∃ k, i ≤ k ∧
    name = prefix +:+ basename +:+ "_"
             +:+ Py.zfill (Py.str (start + k)) width +:+ suffix +:+ ".png".
Proof.
  revert i. induction files as [|f files IH]; intros i; simpl.
  - by intros ?%elem_of_nil.
  - intros [->|H]%elem_of_cons.
    + exists i. split; [lia|done].
    + destruct (IH _ H) as (k & ? & ->). exists k. split; [lia|done].
Qed.

Lemma target_name_inj prefix basename suffix width a b :
  prefix +:+ basename +:+ "_" +:+ Py.zfill (Py.str a) width +:+ suffix +:+ ".png" =
  prefix +:+ basename +:+ "_" +:+ Py.zfill (Py.str b) width +:+ suffix +:+ ".png" →
  a = b.
Proof.
  intros H. do 3 apply String.app_inj in H.
  apply string_app_inv_tail in H. by apply zfill_str_inj in H.
Qed.

Lemma plan_loop_NoDup i files basename start width prefix suffix :
  NoDup (plan_loop i files basename start width prefix suffix).*2.
Proof.
  revert i. induction files as [|f files IH]; intros i; simpl.
  - constructor.
  - constructor; [|apply IH].
    intros (k & Hk & E)%plan_loop_targets.
    apply target_name_inj in E. lia.
Qed.









(** ** CollisionDetector *)














(** ** Paths *)

Lemma after_slash_none (s : string) :
  contains_char "/" s = false → after_slash s = None.
Proof.
  induction s as [|c s IH]; [done|]. simpl.
  intros [Hc Hs]%orb_false_elim. by rewrite IH, Hc.
Qed.

Lemma after_slash_join (folder name : string) :
  contains_char "/" name = false → after_slash (folder // name) = Some name.
Proof.
  intros Hname. unfold joinpath. induction folder as [|c folder IH].
  - rewrite string_app_nil_l, string_app_cons, string_app_nil_l. simpl.
    by rewrite after_slash_none.
  - rewrite string_app_cons. simpl. by rewrite IH.
Qed.

(** The name of [folder / name] is [name] when [name] is one component. *)
Lemma path_name_join (folder name : string) :
  contains_char "/" name = false → path_name (folder // name) = name.
Proof. intros H. unfold path_name. by rewrite after_slash_join. Qed.


(** ** Natural sort *)

Lemma all_digits_app (s t : string) :
  all_digits (s +:+ t) = all_digits s && all_digits t.
Proof.
  induction s as [|c s IH]; [done|].
  rewrite string_app_cons. simpl. by rewrite IH, andb_assoc.
Qed.

Lemma no_digits_app (s t : string) :
  no_digits (s +:+ t) = no_digits s && no_digits t.
Proof.
  induction s as [|c s IH]; [done|].
  rewrite string_app_cons. simpl. by rewrite IH, andb_assoc.
Qed.

Lemma isdigit_snoc (s : string) (c : ascii) :
  isdigit s = true → Py.is_digit c = true → isdigit (s +:+ String c "") = true.
Proof.
  destruct s as [|d s]; [done|]. unfold isdigit. rewrite string_app_cons.
  change (String d (s +:+ String c "")) with (String d s +:+ String c "").
  rewrite all_digits_app. intros ->. simpl. by intros ->.
Qed.

Lemma no_digits_not_isdigit (s : string) : no_digits s = true → isdigit s = false.
Proof.
  destruct s as [|c s]; [done|]. simpl.
  intros [Hc _]%andb_prop. by apply negb_true_iff in Hc as ->.
Qed.

Lemma chunk_of_text (t : string) :
  no_digits t = true → chunk_of t = Txt (Py.lower t).
Proof. intros H. unfold chunk_of. by rewrite no_digits_not_isdigit. Qed.

Lemma chunk_of_digits (d : string) :
  isdigit d = true → chunk_of d = Num (int_of_digits 0 d).
Proof. intros H. unfold chunk_of. by rewrite H. Qed.

(** The pieces of [re.split] alternate, whatever the text. *)
Lemma re_split_digits_alternating (s cur : string) (in_match : bool) :
  (if in_match then isdigit cur else no_digits cur) = true →
  alternating (negb in_match) (chunk_of <$> re_split_digits s cur in_match) = true.
Proof.
  revert cur in_match. induction s as [|c s IH]; intros cur in_match Hcur.
  - destruct in_match; simpl.
    + by rewrite chunk_of_digits.
    + by rewrite chunk_of_text.
  - simpl. destruct (Py.is_digit c) eqn:Hc, in_match; simpl.
    + apply (IH _ true). by apply isdigit_snoc.
    + rewrite chunk_of_text by done. simpl.
      apply (IH _ true). simpl. by rewrite Hc.
    + rewrite chunk_of_digits by done. simpl.
      apply (IH _ false). simpl. by rewrite Hc.
    + apply (IH _ false). rewrite no_digits_app, Hcur. simpl. by rewrite Hc.
Qed.

Lemma natural_sort_key_alternating (text : string) :
  alternating true (natural_sort_key text) = true.
Proof. by apply (re_split_digits_alternating text "" false). Qed.

(** Keys of the same shape never raise when compared. *)
Lemma alternating_comparable (b : bool) (k1 k2 : list chunk) :
  alternating b k1 = true → alternating b k2 = true → is_Some (key_lt k1 k2).
Proof.
  revert b k2. induction k1 as [|a k1 IH]; intros b [|c k2] H1 H2; simpl; eauto.
  destruct a, c, b; simpl in *; try done.
  - destruct (n =? n0)%N; eauto.
  - destruct (String.eqb t t0); eauto.
Qed.

Lemma natural_keys_comparable (a b : string) :
  is_Some (key_lt (natural_sort_key a) (natural_sort_key b)).
Proof.
  apply (alternating_comparable true); apply natural_sort_key_alternating.
Qed.

Lemma re_split_digits_text (t rest cur : string) :
  no_digits t = true →
  re_split_digits (t +:+ rest) cur false = re_split_digits rest (cur +:+ t) false.
Proof.
  revert cur. induction t as [|c t IH]; intros cur.
  - by rewrite string_app_nil_l, string_app_nil_r.
  - intros H. simpl in H. apply andb_prop in H as [Hc Ht].
    apply negb_true_iff in Hc.
    rewrite string_app_cons. simpl re_split_digits. rewrite Hc, IH by done.
    by rewrite string_app_assoc.
Qed.

Lemma re_split_digits_run (d rest cur : string) :
  all_digits d = true →
  re_split_digits (d +:+ rest) cur true = re_split_digits rest (cur +:+ d) true.
Proof.
  revert cur. induction d as [|c d IH]; intros cur.
  - by rewrite string_app_nil_l, string_app_nil_r.
  - intros H. simpl in H. apply andb_prop in H as [Hc Hd].
    rewrite string_app_cons. simpl re_split_digits. rewrite Hc, IH by done.
    by rewrite string_app_assoc.
Qed.

(** The key of a name made of text, a number and text again. *)
Lemma natural_sort_key_framed (t d e : string) :
  no_digits t = true → isdigit d = true → no_digits e = true →
  natural_sort_key (t +:+ d +:+ e) =
  [Txt (Py.lower t); Num (int_of_digits 0 d); Txt (Py.lower e)].
Proof.
  intros Ht Hd He. unfold natural_sort_key.
  rewrite re_split_digits_text by done. rewrite string_app_nil_l.
  destruct d as [|c d]; [done|]. simpl in Hd.
  apply andb_prop in Hd as [Hc Hd].
  rewrite string_app_cons. simpl re_split_digits. rewrite Hc.
  rewrite re_split_digits_run by done.
  assert (re_split_digits e (String c "" +:+ d) true =
          [String c d; e]) as ->.
  { rewrite string_app_cons, string_app_nil_l.
    destruct e as [|x e]; [done|]. simpl in He.
    apply andb_prop in He as [Hx He]. apply negb_true_iff in Hx.
    simpl. rewrite Hx. f_equal.
    rewrite <- (string_app_nil_r e) at 1.
    rewrite (re_split_digits_text e "" (String x "")) by done.
    by rewrite string_app_cons, string_app_nil_l. }
  simpl. rewrite chunk_of_text by done.
  rewrite chunk_of_digits by (simpl; by rewrite Hc, Hd).
  by rewrite chunk_of_text.
Qed.

Section StableSort.

Variable lt : path → path → bool.
Hypothesis lt_asym : ∀ x y, lt x y = true → lt y x = false.

Lemma insert_by_Permutation (x : path) (l : list path) :
  insert_by lt x l ≡ₚ x :: l.
Proof.
  induction l as [|y l IH]; simpl; [done|].
  destruct (lt y x); [|done]. rewrite IH. apply Permutation_swap.
Qed.

Lemma stable_sort_Permutation (l : list path) : stable_sort lt l ≡ₚ l.
Proof.
  induction l as [|x l IH]; simpl; [done|].
  by rewrite insert_by_Permutation, IH.
Qed.

Lemma insert_by_HdRel (a x : path) (l : list path) :
  (not_before lt) a x → HdRel (not_before lt) a l → HdRel (not_before lt) a (insert_by lt x l).
Proof.
  intros Hax Hl. destruct l as [|y l]; simpl.
  - by constructor.
  - destruct (lt y x); constructor; [|done]. by inversion Hl.
Qed.

Lemma insert_by_Sorted (x : path) (l : list path) :
  Sorted (not_before lt) l → Sorted (not_before lt) (insert_by lt x l).
Proof.
  induction 1 as [|y l Hl IH Hhd]; simpl.
  - by repeat constructor.
  - destruct (lt y x) eqn:E.
    + constructor; [done|]. apply insert_by_HdRel; [|done].
      by apply lt_asym.
    + constructor; [by constructor|]. by constructor.
Qed.

Lemma stable_sort_Sorted (l : list path) : Sorted (not_before lt) (stable_sort lt l).
Proof.
  induction l as [|x l IH]; simpl; [constructor|]. by apply insert_by_Sorted.
Qed.

End StableSort.

Lemma string_ltb_asym (s t : string) : String.ltb s t = true → String.ltb t s = false.
Proof.
  unfold String.ltb. rewrite (String.compare_antisym s t).
  by destruct (String.compare t s).
Qed.

Lemma chunk_eqb_sym (a b : chunk) : chunk_eqb a b = chunk_eqb b a.
Proof.
  destruct a, b; simpl; [apply N.eqb_sym|done|done|apply String.eqb_sym].
Qed.

Lemma key_lt_asym (k1 k2 : list chunk) :
  key_lt k1 k2 = Some true → key_lt k2 k1 ≠ Some true.
Proof.
  revert k2. induction k1 as [|a k1 IH]; intros [|b k2]; simpl; try done.
  rewrite (chunk_eqb_sym b a). destruct (chunk_eqb a b); [apply IH|].
  destruct a, b; simpl; try done.
  - intros [= H%N.ltb_lt] [= H'%N.ltb_lt]. lia.
  - intros [= H] [= H']. apply string_ltb_asym in H. congruence.
Qed.

Lemma name_lt_asym (x y : path) : name_lt x y = true → name_lt y x = false.
Proof.
  unfold name_lt. intros H.
  destruct (key_lt (natural_sort_key (path_name x)) (natural_sort_key (path_name y)))
    as [[]|] eqn:E; try done.
  apply key_lt_asym in E.
  by destruct (key_lt (natural_sort_key (path_name y))
                 (natural_sort_key (path_name x))) as [[]|].
Qed.

Lemma sort_by_name_Permutation (l : list path) : sort_by_name l ≡ₚ l.
Proof. apply stable_sort_Permutation. Qed.

Lemma string_ltb_irrefl (s : string) : String.ltb s s = false.
Proof.
  destruct (String.ltb s s) eqn:E; [|done].
  pose proof (string_ltb_asym _ _ E). congruence.
Qed.

(** *** The natural order is a total preorder *)

Lemma chunk_eqb_eq (a b : chunk) : chunk_eqb a b = true ↔ a = b.
Proof.
  destruct a, b; simpl; try (split; [done|discriminate]).
  - rewrite N.eqb_eq. split; congruence.
  - rewrite String.eqb_eq. split; congruence.
Qed.

Lemma string_ltb_total (s t : string) :
  s ≠ t → String.ltb s t = true ∨ String.ltb t s = true.
Proof.
  intros Hne. unfold String.ltb. rewrite (String.compare_antisym t s).
  destruct (String.compare s t) eqn:E; simpl; auto.
  by apply String.compare_eq_iff in E.
Qed.

Lemma string_ltb_leb (s t : string) : String.ltb s t = negb (String.leb t s).
Proof.
  unfold String.ltb, String.leb. rewrite (String.compare_antisym t s).
  by destruct (String.compare s t).
Qed.

(** If [c < a] then any [b] is below [a] or above [c]. *)
Lemma string_ltb_cotrans (a b c : string) :
  String.ltb c a = true → String.ltb b a = true ∨ String.ltb c b = true.
Proof.
  rewrite !string_ltb_leb, !negb_true_iff. intros Hac.
  destruct (String.leb a b) eqn:Hab; [|by left].
  destruct (String.leb b c) eqn:Hbc; [|by right].
  assert (String.le a c) as Hle.
  { transitivity b; by apply Is_true_true. }
  apply Is_true_true in Hle. congruence.
Qed.

(** Two chunks of the same kind. *)
Lemma chunk_lt_total (a b : chunk) :
  is_Some (chunk_lt a b) → a ≠ b →
  chunk_lt a b = Some true ∨ chunk_lt b a = Some true.
Proof.
  destruct a as [m|s], b as [n|t]; simpl; try (by intros [??]); intros _ Hne.
  - assert (m ≠ n) by congruence.
    destruct (N.ltb_spec m n); [by left|right].
    f_equal. apply N.ltb_lt. lia.
  - assert (s ≠ t) as Hst by congruence.
    destruct (string_ltb_total s t Hst) as [->| ->]; auto.
Qed.

Lemma chunk_lt_cotrans (a b c : chunk) :
  is_Some (chunk_lt b a) →
  chunk_lt c a = Some true →
  chunk_lt b a = Some true ∨ chunk_lt c b = Some true.
Proof.
  destruct a as [m|s], b as [n|t], c as [p|u]; simpl;
    try (by intros [??]); try done; intros _ [= H].
  - apply N.ltb_lt in H. destruct (N.ltb_spec n m); [by left|right].
    f_equal. apply N.ltb_lt. lia.
  - destruct (string_ltb_cotrans _ t _ H) as [->| ->]; auto.
Qed.

Lemma chunk_lt_irrefl (a : chunk) : chunk_lt a a ≠ Some true.
Proof.
  destruct a; simpl; intros [= H].
  - apply N.ltb_lt in H. lia.
  - by rewrite string_ltb_irrefl in H.
Qed.

Lemma alternating_head_comparable b a k1 c k2 :
  alternating b (a :: k1) = true → alternating b (c :: k2) = true →
  is_Some (chunk_lt a c).
Proof. destruct a, c, b; simpl; try done; eauto. Qed.

Lemma alternating_tail b a k :
  alternating b (a :: k) = true → alternating (negb b) k = true.
Proof. destruct a, b; simpl; try done. Qed.

Lemma key_lt_cons_ne a k1 c k2 :
  a ≠ c → key_lt (a :: k1) (c :: k2) = chunk_lt a c.
Proof.
  intros Hne. simpl. destruct (chunk_eqb a c) eqn:E; [|done].
  by apply chunk_eqb_eq in E.
Qed.

Lemma key_lt_cons_eq a k1 k2 : key_lt (a :: k1) (a :: k2) = key_lt k1 k2.
Proof. simpl. by rewrite (proj2 (chunk_eqb_eq a a) eq_refl). Qed.

(** On keys of one shape: if [k3 < k1], any [k2] is below [k1] or above
    [k3]. *)
Lemma key_lt_cotrans (b : bool) (k1 k2 k3 : list chunk) :
  alternating b k1 = true → alternating b k2 = true → alternating b k3 = true →
  key_lt k3 k1 = Some true →
  key_lt k2 k1 = Some true ∨ key_lt k3 k2 = Some true.
Proof.
  revert b k2 k3. induction k1 as [|a k1 IH]; intros b k2 k3 H1 H2 H3 H31.
  { by destruct k3. }
  destruct k2 as [|x k2]; [by left|].
  destruct k3 as [|c k3]; [by right|].
  pose proof (alternating_head_comparable _ _ _ _ _ H2 H1) as Hxa.
  pose proof (alternating_head_comparable _ _ _ _ _ H3 H2) as Hcx.
  destruct (decide (c = a)) as [->|Hca].
  - rewrite key_lt_cons_eq in H31.
    destruct (decide (x = a)) as [->|Hxa'].
    + rewrite !key_lt_cons_eq.
      apply (IH (negb b)); eauto using alternating_tail.
    + rewrite !key_lt_cons_ne by done.
      destruct (chunk_lt_total x a Hxa Hxa'); auto.
  - rewrite key_lt_cons_ne in H31 by done.
    destruct (chunk_lt_cotrans a x c Hxa H31) as [H|H].
    + left. rewrite key_lt_cons_ne; [done|].
      intros ->. by apply chunk_lt_irrefl in H.
    + right. rewrite key_lt_cons_ne; [done|].
      intros ->. by apply chunk_lt_irrefl in H.
Qed.

Lemma name_lt_true (x y : path) :
  name_lt x y = true ↔
  key_lt (natural_sort_key (path_name x)) (natural_sort_key (path_name y))
  = Some true.
Proof.
  unfold name_lt.
  destruct (natural_keys_comparable (path_name x) (path_name y)) as [v ->].
  simpl. split; congruence.
Qed.

Lemma not_before_name_lt_trans : Transitive (not_before name_lt).
Proof.
  intros x y z Hxy Hyz. unfold not_before in *.
  destruct (name_lt z x) eqn:E; [|done].
  apply name_lt_true in E.
  destruct (key_lt_cotrans true _ (natural_sort_key (path_name y)) _
              (natural_sort_key_alternating _) (natural_sort_key_alternating _)
              (natural_sort_key_alternating _) E) as [H|H];
    apply name_lt_true in H; congruence.
Qed.

Lemma sort_by_name_StronglySorted (l : list path) :
  StronglySorted (not_before name_lt) (sort_by_name l).
Proof.
  apply Sorted_StronglySorted; [apply not_before_name_lt_trans|].
  apply stable_sort_Sorted, name_lt_asym.
Qed.





(** ** RenameExecutor *)

(** Every rename adds exactly one event and leaves the clock alone. *)
Lemma os_rename_ok denied src dst w w' :
  os_rename denied src dst w = (Ok (), w') →
  ∃ f, files w !! src = Some f
    ∧ files w' = <[dst := f]> (delete src (files w))
    ∧ ticks w' = ticks w
    ∧ history w' = history w ++
        [EvRename src dst (path_exists dst w && negb (String.eqb dst src))].
Proof.
  unfold os_rename. destruct (files w !! src) as [f|]; [|done].
  destruct (denied _); [done|]. intros [= <-]. by exists f.
Qed.

Lemma os_rename_raise denied src dst w e w' :
  os_rename denied src dst w = (Raise e, w') → w' = w.
Proof.
  unfold os_rename. destruct (files w !! src) as [f|]; [|by intros [= _ <-]].
  destruct (denied _); [by intros [= _ <-]|done].
Qed.

(** The staged entries of a plan: those whose file is not yet named as
    planned. *)
Lemma stage_loop_targets clock denied renames folder acc w temps w' :
  stage_loop clock denied renames folder acc w = (None, temps, w') →
  ∃ new_temps,
    temps = acc ++ new_temps
    ∧ new_temps.*2 = (filter (λ e, path_name e.1 ≠ e.2) renames).*2.
Proof.
  revert acc w. induction renames as [|[old new] rest IH]; intros acc w; simpl.
  - intros [= <- <-]. exists []. by rewrite app_nil_r.
  - rewrite filter_cons. simpl.
    destruct (String.eqb (path_name old) new) eqn:E; simpl.
    + apply String.eqb_eq in E. rewrite decide_False by (by intros ?).
      apply IH.
    + apply String.eqb_neq in E. rewrite decide_True by done.
      destruct (os_rename _ _ _ _) as [[[]|e] w1] eqn:Hr; [|done].
      intros (new_temps & -> & Hn)%IH.
      eexists (_ :: new_temps). split; [by rewrite <- app_assoc|].
      rewrite !fmap_cons. by f_equal.
Qed.

Lemma commit_loop_finals denied temps folder acc w final w' :
  commit_loop denied temps folder acc w = (Ok final, w') →
  ∃ new_final,
    final = acc ++ new_final
    ∧ new_final.*2 = (λ new, folder // new) <$> temps.*2.
Proof.
  revert acc w. induction temps as [|[tp new] temps IH]; intros acc w; simpl.
  - intros [= <- <-]. exists []. by rewrite app_nil_r.
  - destruct (os_rename _ _ _ _) as [[[]|e] w1] eqn:Hr; [|done].
    intros (new_final & -> & Hn)%IH.
    eexists (_ :: new_final). split; [by rewrite <- app_assoc|].
    rewrite !fmap_cons. by f_equal.
Qed.

(** *** The name recovered from a temporary name *)

Lemma contains_char_cons (c x : ascii) (s : string) :
  contains_char c (String x s) = Ascii.eqb x c || contains_char c s.
Proof. reflexivity. Qed.

Lemma contains_char_app (c : ascii) (s t : string) :
  contains_char c (s +:+ t) = contains_char c s || contains_char c t.
Proof.
  induction s as [|x s IH]; [done|].
  rewrite string_app_cons. simpl. by rewrite IH, orb_assoc.
Qed.

Lemma pretty_N_char_digit (d : N) : Py.is_digit (pretty_N_char d) = true.
Proof. unfold pretty_N_char. by repeat case_match. Qed.

Lemma eqb_digit_other (x c : ascii) :
  Py.is_digit x = true → Py.is_digit c = false → Ascii.eqb x c = false.
Proof.
  intros Hx Hc. destruct (Ascii.eqb x c) eqn:E; [|done].
  apply Ascii.eqb_eq in E as ->. congruence.
Qed.

Lemma pretty_N_go_no_char (c : ascii) (x : N) (s : string) :
  Py.is_digit c = false → contains_char c s = false →
  contains_char c (pretty_N_go x s) = false.
Proof.
  intros Hc. revert s. induction (N.lt_wf_0 x) as [x _ IH]. intros s Hs.
  destruct (decide (x = 0)%N) as [->|Hx]; [by rewrite pretty_N_go_0|].
  rewrite pretty_N_go_step by lia. apply IH; [apply N.div_lt; lia|].
  by rewrite contains_char_cons,
    (eqb_digit_other _ c (pretty_N_char_digit _) Hc).
Qed.

(** A numeral has digits and at most a minus sign. *)
Lemma str_no_char (c : ascii) (n : Z) :
  Py.is_digit c = false → Ascii.eqb "-" c = false →
  contains_char c (Py.str n) = false.
Proof.
  intros Hc Hm. unfold Py.str, pretty, pretty_Z.
  assert (∀ p : positive, contains_char c (pretty p) = false) as Hpos.
  { intros p. unfold pretty, pretty_positive, pretty, pretty_N.
    rewrite decide_False by lia. by apply pretty_N_go_no_char. }
  destruct n as [|p|p].
  - change (contains_char c (String "0" "") = false).
    by rewrite contains_char_cons, (eqb_digit_other "0" c).
  - apply Hpos.
  - rewrite contains_char_app, Hpos, contains_char_cons, Hm. done.
Qed.

Lemma zeros_no_char (c : ascii) (k : nat) :
  Py.is_digit c = false → contains_char c (Py.zeros k) = false.
Proof.
  intros Hc. induction k as [|k IH]; [done|].
  change (contains_char c (String "0" (Py.zeros k)) = false).
  by rewrite contains_char_cons, IH, (eqb_digit_other "0" c).
Qed.

Lemma zfill_no_char (c : ascii) (s : string) (width : Z) :
  Py.is_digit c = false → contains_char c s = false →
  contains_char c (Py.zfill s width) = false.
Proof.
  intros Hc Hs. unfold Py.zfill. case_match; [done|].
  destruct s as [|x s]; [by apply zeros_no_char|].
  rewrite contains_char_cons in Hs. apply orb_false_elim in Hs as [Hx Hs].
  case_match.
  - by rewrite contains_char_cons, Hx, contains_char_app, zeros_no_char, Hs.
  - rewrite contains_char_app, zeros_no_char by done.
    by rewrite contains_char_cons, Hx, Hs.
Qed.

Lemma numeral_no_char (c : ascii) (n width : Z) :
  Py.is_digit c = false → Ascii.eqb "-" c = false →
  contains_char c (Py.zfill (Py.str n) width) = false.
Proof. intros. by apply zfill_no_char, str_no_char. Qed.

Lemma split_char_cut (sep : ascii) (m : nat) (a rest : string) :
  contains_char sep a = false →
  split_char sep (S m) (a +:+ String sep rest) = a :: split_char sep m rest.
Proof.
  induction a as [|x a IH]; intros Ha.
  - rewrite string_app_nil_l. simpl. by rewrite Ascii.eqb_refl.
  - simpl in Ha. apply orb_false_elim in Ha as [Hx Ha].
    rewrite string_app_cons. simpl split_char. rewrite Hx.
    fold (split_char sep (S m) (a +:+ String sep rest)). by rewrite IH.
Qed.

Lemma split_char_whole (sep : ascii) (s : string) :
  split_char sep 0 s = [s].
Proof. by destruct s. Qed.

(** The temporary name [temp_<date>_<time>_<microseconds>_<name>] has
    four underscores before [<name>].  Cut at three of them, its last
    piece is [<microseconds>_<name>]: that is the name [two_phase_rename]
    takes for the original one. *)
Lemma recovered_name_temp (folder : path) (dt : datetime) (name : string) :
  contains_char "/" name = false →
  recovered_name
    (folder // ("temp_" +:+ strftime_stamp dt +:+ "_" +:+ name)) =
  Py.zfill (Py.str (microsecond dt)) 6 +:+ "_" +:+ name.
Proof.
  intros Hname. unfold recovered_name, strftime_stamp.
  set (Y := Py.zfill (Py.str (year dt)) 4).
  set (m := Py.zfill (Py.str (month dt)) 2).
  set (d := Py.zfill (Py.str (day dt)) 2).
  set (H := Py.zfill (Py.str (hour dt)) 2).
  set (M := Py.zfill (Py.str (minute dt)) 2).
  set (S := Py.zfill (Py.str (second dt)) 2).
  set (f := Py.zfill (Py.str (microsecond dt)) 6).
  assert (∀ c n width, Py.is_digit c = false → Ascii.eqb "-" c = false →
            contains_char c (Py.zfill (Py.str n) width) = false) as Hnum
    by apply numeral_no_char.
  assert ("temp_" +:+ (Y +:+ m +:+ d +:+ "_" +:+ H +:+ M +:+ S +:+ "_" +:+ f)
            +:+ "_" +:+ name =
          "temp" +:+ String "_" ((Y +:+ m +:+ d) +:+ String "_"
            ((H +:+ M +:+ S) +:+ String "_" (f +:+ "_" +:+ name)))) as ->.
  { rewrite !string_app_assoc. reflexivity. }
  rewrite path_name_join.
  2:{ subst Y m d H M S f.
      repeat (rewrite contains_char_app || rewrite contains_char_cons
              || rewrite Hnum by done).
      by rewrite Hname. }
  rewrite contains_char_app. simpl orb. cbv iota.
  rewrite (split_char_cut "_" 2 "temp") by done.
  rewrite (split_char_cut "_" 1 (Y +:+ m +:+ d)).
  2:{ rewrite !contains_char_app. subst Y m d. by rewrite !Hnum. }
  rewrite (split_char_cut "_" 0 (H +:+ M +:+ S)).
  2:{ rewrite !contains_char_app. subst H M S. by rewrite !Hnum. }
  by rewrite split_char_whole.
Qed.

(** So the recovered name is never the original name. *)
Lemma recovered_name_not_original (folder : path) (dt : datetime) (name : string) :
  contains_char "/" name = false →
  recovered_name
    (folder // ("temp_" +:+ strftime_stamp dt +:+ "_" +:+ name)) ≠ name.
Proof.
  intros Hname. rewrite recovered_name_temp by done.
  intros H%(f_equal String.length).
  rewrite !string_length_app in H. simpl in H. lia.
Qed.




(** C1: the round trip at a concrete batch.  The plan comes from
    [plan_renames] and has no collision; the batch is executed, logged
    and undone without any failure.  The ledger is gone afterwards, but
    the image that was [d/a.png] is now [d/000000_a.png]: the name
    recovered from the temporary name keeps the microseconds of the
    stamp, because the temporary name is cut at three underscores and
    four come before the original name. *)
Lemma rename_then_undo_wrong_names :
  let log := "d/rename_log.csv"%string in
  ∃ plan out,
    plan_renames ["d/a.png"; "d/b.png"]%string "frame" 1 0 "" "" = Ok plan
    ∧ (detect_collisions plan "d" two_images).1 = []
    ∧ rename_then_undo clock_tick allow_all plan "d" log two_images = out
    ∧ out.1 = Ok [("d/frame_1.png", "d/000000_a.png");
                   ("d/frame_2.png", "d/000001_b.png")]%string
    ∧ files two_images !! "d/a.png"%string = Some (Blob 1)
    ∧ files out.2 !! "d/a.png"%string = None
    ∧ files out.2 !! "d/000000_a.png"%string = Some (Blob 1)
    ∧ files out.2 !! log = None.
Proof.
  intros log. eexists _, _. split; [reflexivity|].
  split; [reflexivity|]. split; [reflexivity|].
  repeat split; vm_compute; reflexivity.
Qed.

(** C2: the rollback at a concrete failure.  The first file is staged,
    the operating system refuses to rename the second, nothing was
    committed; the handler then moves the staged file to
    [d/000000_a.png], not back to [d/a.png]. *)
Lemma two_phase_rename_rollback_wrong_name :
  let out :=
    two_phase_rename clock_tick (deny_rename_of "d/b.png")
      [("d/a.png", "frame_1.png"); ("d/b.png", "frame_2.png")]%string "d"
      two_images in
  out.1 = Raise PermissionError
  ∧ history out.2 =
      [EvRename "d/a.png" "d/temp_20240102_030405_000000_a.png" false;
       EvRename "d/temp_20240102_030405_000000_a.png" "d/000000_a.png" false]
  ∧ files two_images !! "d/a.png"%string = Some (Blob 1)
  ∧ files out.2 !! "d/a.png"%string = None
  ∧ files out.2 !! "d/000000_a.png"%string = Some (Blob 1).
Proof. repeat split; vm_compute; reflexivity. Qed.







(** ** RenameLedger *)

Lemma foldl_insert_some_values (P : string → Prop) (l : list (string * string))
    (d : gmap string (option string)) :
  (∀ k s, d !! k = Some (Some s) → P s) →
  (∀ kv, kv ∈ l → P kv.2) →
  ∀ k s, foldl (λ d kv, <[kv.1 := Some kv.2]> d) d l !! k = Some (Some s) → P s.
Proof.
  revert d. induction l as [|[k0 v0] l IH]; intros d Hd Hl; simpl; [done|].
  apply IH.
  - intros k s. destruct (decide (k0 = k)) as [->|Hne].
    + rewrite lookup_insert_eq. intros [= <-]. apply (Hl (k, v0)). by left.
    + rewrite lookup_insert_ne by done. apply Hd.
  - intros kv Hkv. apply Hl. by right.
Qed.

Lemma foldl_insert_none_values (P : string → Prop) (l : list string)
    (d : gmap string (option string)) :
  (∀ k s, d !! k = Some (Some s) → P s) →
  ∀ k s, foldl (λ d k, <[k := None]> d) d l !! k = Some (Some s) → P s.
Proof.
  revert d. induction l as [|k0 l IH]; intros d Hd; simpl; [done|].
  apply IH. intros k s. destruct (decide (k0 = k)) as [->|Hne].
  - by rewrite lookup_insert_eq.
  - rewrite lookup_insert_ne by done. apply Hd.
Qed.

(** A path read from a row is one of the fields of the row. *)
Lemma row_path_in_row fieldnames row key s :
  row_path (dict_of_row fieldnames row) key = Ok s → s ∈ row.
Proof.
  unfold row_path.
  destruct (dict_of_row fieldnames row !! key) as [[s'|]|] eqn:E; try done.
  intros [= <-]. unfold dict_of_row in E.
  eapply (foldl_insert_none_values (λ s, s ∈ row)); [|exact E].
  apply (foldl_insert_some_values (λ s, s ∈ row)).
  - intros k s. by rewrite lookup_empty.
  - intros [k v] Hkv. simpl. by apply elem_of_zip_r in Hkv.
Qed.

Lemma row_paths_in_row fieldnames row new_path old_path :
  row_paths (dict_of_row fieldnames row) = Ok (new_path, old_path) →
  new_path ∈ row ∧ old_path ∈ row.
Proof.
  unfold row_paths.
  destruct (row_path _ "new_path") as [n|] eqn:En; [|done].
  destruct (row_path _ "old_path") as [o|] eqn:Eo; [|done].
  intros [= <- <-]. split; by eapply row_path_in_row.
Qed.


Lemma undo_replay_sublist m records undone m' :
  undo_replay m records undone m' → undone `sublist_of` records.
Proof. induction 1; by constructor. Qed.

(** What the loop of [undo_from_log] does, from any state: it only
    renames, it leaves alone every path that is no field of a row, and
    when it returns, it has replayed the records. *)
Lemma undo_loop_spec denied fieldnames rows undone0 w r w' :
  undo_loop denied fieldnames rows undone0 w = (r, w') →
  (∀ log, (∀ row, row ∈ rows → log ∉ row) → files w' !! log = files w !! log)
  ∧ ∃ evs,
      history w' = history w ++ evs
      ∧ Forall is_rename evs
      ∧ match r with
        | Ok undone =>
            ∃ records new_undone,
              undone = undone0 ++ new_undone
              ∧ Forall2 (λ row rec, row_paths (dict_of_row fieldnames row) = Ok rec)
                  (filter (λ row, row ≠ []) rows) records
              ∧ undo_replay (files w) records new_undone (files w')
              ∧ Forall2 (λ ev u, ∃ b, ev = EvRename u.1 u.2 b) evs new_undone
        | Raise e => True
        end.
Proof.
  revert undone0 w.
  induction rows as [|row rows IH]; intros undone0 w.
  { simpl. intros [= <- <-]. split; [done|]. exists [].
    rewrite app_nil_r. split; [done|]. split; [constructor|].
    exists [], []. rewrite app_nil_r. repeat split; constructor. }
  assert (∀ log, (∀ row', row' ∈ row :: rows → log ∉ row') →
                 ∀ row', row' ∈ rows → log ∉ row') as Htail.
  { intros log H row' Hin. apply H. by right. }
  destruct row as [|c row].
  { simpl. rewrite filter_cons, decide_False by (by intros ?).
    intros Hl. destruct (IH _ _ Hl) as [Hlog Hrest]. split; [|done].
    intros log Hnot. apply Hlog. eauto. }
  simpl undo_loop. rewrite filter_cons, decide_True by done.
  destruct (row_paths (dict_of_row fieldnames (c :: row)))
    as [[new_path old_path]|e] eqn:Hrow.
  2:{ intros [= <- <-]. split; [done|]. exists []. rewrite app_nil_r.
      split; [done|]. split; [constructor|done]. }
  apply row_paths_in_row in Hrow as Hin. destruct Hin as [Hnew Hold].
  unfold path_exists.
  destruct (files w !! new_path) as [f|] eqn:Hfile.
  - rewrite bool_decide_eq_true_2 by eauto.
    destruct (os_rename denied new_path old_path w) as [[[]|e] w1] eqn:Hr.
    + apply os_rename_ok in Hr as (f' & Hsrc & Hfiles & _ & Hhist).
      assert (f' = f) as -> by congruence.
      intros Hl. destruct (IH _ _ Hl) as (Hlog & evs & Hh & Hev & Hres).
      split.
      { intros log Hnot. rewrite (Hlog log) by eauto.
        assert (log ∉ c :: row) as Hrow' by (apply Hnot; by left).
        rewrite Hfiles, lookup_insert_ne, lookup_delete_ne; [done|..];
          by intros ->. }
      exists (EvRename new_path old_path
                (path_exists old_path w && negb (String.eqb old_path new_path))
              :: evs).
      split; [by rewrite Hh, Hhist, <- app_assoc|].
      split; [by constructor|].
      destruct r as [undone|e]; [|done].
      destruct Hres as (records & new_undone & -> & Hrec & Hrep & Hev2).
      exists ((new_path, old_path) :: records),
             ((new_path, old_path) :: new_undone).
      rewrite <- app_assoc. split; [done|].
      split; [by constructor|].
      split; [apply (undo_replay_back _ _ _ f); [done|by rewrite <- Hfiles]|].
      constructor; [by eexists|done].
    + apply os_rename_raise in Hr as ->. intros [= <- <-].
      split; [done|]. exists []. rewrite app_nil_r.
      split; [done|]. split; [constructor|done].
  - rewrite bool_decide_eq_false_2 by (by intros [??]).
    intros Hl. destruct (IH _ _ Hl) as (Hlog & evs & Hh & Hev & Hres).
    split; [intros log Hnot; apply Hlog; eauto|].
    exists evs. split; [done|]. split; [done|].
    destruct r as [undone|e]; [|done].
    destruct Hres as (records & new_undone & -> & Hrec & Hrep & Hev2).
    exists ((new_path, old_path) :: records), new_undone.
    split; [done|]. split; [by constructor|].
    split; [by apply undo_replay_skip|]. done.
Qed.

(** C10: on a ledger with a header row, when [undo_from_log] returns,
    its result is exactly the records that were renamed back, in file
    order: the records are replayed one after the other, a record whose
    final path exists at its turn is renamed and reported, a record whose
    final path is missing is skipped and left out; the ledger is removed
    last, after all the renames.  When [undo_from_log] raises, whatever
    the cause and in particular when a rename-back fails, nothing has
    been removed: the changes made so far are renames only, and the
    ledger file is where it was with the content it had, if its path is
    no field of a row. *)
Theorem undo_from_log_contract (denied : syscall → bool) (log : path)
    (w w' : world) (fieldnames : list string) (rows : list (list string))
    (r : result (list (path * path))) :
  files w !! log = Some (Csv (fieldnames :: rows)) →
  undo_from_log denied log w = (r, w') →
  match r with
  | Ok undone =>
      ∃ records m evs,
        Forall2 (λ row rec, row_paths (dict_of_row fieldnames row) = Ok rec)
          (filter (λ row, row ≠ []) rows) records
        ∧ undone `sublist_of` records
        ∧ undo_replay (files w) records undone m
        ∧ Forall2 (λ ev u, ∃ b, ev = EvRename u.1 u.2 b) evs undone
        ∧ history w' = history w ++ evs ++ [EvRemove log]
        ∧ files w' = delete log m
  | Raise e =>
      ∃ evs,
        history w' = history w ++ evs
        ∧ Forall is_rename evs
        ∧ ((∀ row, row ∈ rows → log ∉ row) → files w' !! log = files w !! log)
  end.
Proof.
  intros Hlog. unfold undo_from_log, path_exists.
  rewrite bool_decide_eq_true_2 by (by rewrite Hlog). simpl.
  unfold undo_body. rewrite Hlog.
  destruct (denied (SysOpenRead log)).
  { intros [= <- <-]. exists []. rewrite app_nil_r.
    split; [done|]. split; [constructor|done]. }
  destruct (undo_loop denied fieldnames rows [] w) as [[undone|e] w1] eqn:Hl;
    apply undo_loop_spec in Hl as (Hkeep & evs & Hh & Hev & Hres).
  - unfold os_remove. destruct (files w1 !! log) as [f|] eqn:Hf.
    + destruct (denied (SysRemove log)).
      * intros [= <- <-]. exists evs. split; [done|]. split; [done|].
        intros Hn. rewrite <- Hlog. by apply Hkeep.
      * intros [= <- <-]. simpl.
        destruct Hres as (records & new_undone & -> & Hrec & Hrep & Hev2).
        simpl. exists records, (files w1), evs.
        split; [done|]. split; [by eapply undo_replay_sublist|].
        split; [done|]. split; [done|]. by rewrite Hh, <- app_assoc.
    + intros [= <- <-]. exists evs. split; [done|]. split; [done|].
        intros Hn. rewrite <- Hlog. by apply Hkeep.
  - intros [= <- <-]. exists evs. split; [done|]. split; [done|].
        intros Hn. rewrite <- Hlog. by apply Hkeep.
Qed.

(** A ledger of two records: the final path of the first is missing. *)
Lemma undo_from_log_contract_witness :
  let log := "d/rename_log.csv"%string in
  let rows := [["d/a.png"; "d/frame_1.png"; "t"];
               ["d/b.png"; "d/frame_2.png"; "t"]]%string in
  let w := World (<[log := Csv (ledger_header :: rows)]>
                    (<["d/frame_2.png"%string := Blob 2]> ∅)) 0 [] in
  (∃ records m evs,
     Forall2 (λ row rec, row_paths (dict_of_row ledger_header row) = Ok rec)
       (filter (λ row, row ≠ []) rows) records
     ∧ [("d/frame_2.png", "d/b.png")]%string `sublist_of` records
     ∧ undo_replay (files w) records [("d/frame_2.png", "d/b.png")]%string m
     ∧ Forall2 (λ ev u, ∃ b, ev = EvRename u.1 u.2 b) evs
         [("d/frame_2.png", "d/b.png")]%string
     ∧ history (undo_from_log allow_all log w).2 =
         history w ++ evs ++ [EvRemove log]
     ∧ files (undo_from_log allow_all log w).2 = delete log m)
  ∧ (∃ evs,
       history (undo_from_log (deny_rename_of "d/frame_2.png") log w).2 =
         history w ++ evs
       ∧ Forall is_rename evs
       ∧ ((∀ row, row ∈ rows → log ∉ row) →
          files (undo_from_log (deny_rename_of "d/frame_2.png") log w).2 !! log
          = files w !! log)).
Proof.
  intros log rows w. split.
  - apply (undo_from_log_contract allow_all log w
             (undo_from_log allow_all log w).2 ledger_header rows
             (undo_from_log allow_all log w).1); reflexivity.
  - apply (undo_from_log_contract (deny_rename_of "d/frame_2.png") log w
             (undo_from_log (deny_rename_of "d/frame_2.png") log w).2
             ledger_header rows
             (undo_from_log (deny_rename_of "d/frame_2.png") log w).1);
      reflexivity.
Defined.

(** * Further properties of the code *)

(** ** [natural_sort_key] and the Name sort *)

Lemma join_re_split_digits (s cur : string) (in_match : bool) :
  join_pieces (re_split_digits s cur in_match) = cur +:+ s.
Proof.
  revert cur in_match. induction s as [|c s IH]; intros cur in_match.
  - destruct in_match; simpl; by rewrite ?string_app_nil_r.
  - simpl. destruct (Py.is_digit c), in_match; simpl; rewrite IH;
      by rewrite ?string_app_assoc.
Qed.

Lemma re_split_digits_pieces (s cur : string) (in_match : bool) :
  (if in_match then isdigit cur else no_digits cur) = true →
  pieces_alternate (negb in_match) (re_split_digits s cur in_match) = true
  ∧ Nat.odd (length (re_split_digits s cur in_match)) = negb in_match.
Proof.
  revert cur in_match. induction s as [|c s IH]; intros cur in_match Hcur.
  - destruct in_match; simpl; by rewrite Hcur.
  - simpl. destruct (Py.is_digit c) eqn:Hc, in_match; simpl.
    + apply (IH _ true). by apply isdigit_snoc.
    + rewrite Hcur. simpl.
      destruct (IH (String c "") true) as [Halt Hodd]; [simpl; by rewrite Hc|].
      simpl in Halt, Hodd. rewrite Halt. split; [done|].
      by rewrite Nat.odd_succ, <- Nat.negb_odd, Hodd.
    + rewrite Hcur. simpl.
      destruct (IH (String c "") false) as [Halt Hodd]; [simpl; by rewrite Hc|].
      simpl in Halt, Hodd. rewrite Halt. split; [done|].
      by rewrite Nat.odd_succ, <- Nat.negb_odd, Hodd.
    + apply (IH _ false). rewrite no_digits_app, Hcur. simpl. by rewrite Hc.
Qed.

(** X1: [re.split(r'(\d+)', text)] loses nothing and cuts exactly at the
    digit runs: the pieces joined give the text back, there is an odd
    number of them, and they alternate between text without any digit
    (first and last piece included, possibly empty) and non-empty runs of
    digits. *)
Theorem re_split_digits_roundtrip (text : string) :
  join_pieces (re_split_digits text "" false) = text
  ∧ Nat.odd (length (re_split_digits text "" false)) = true
  ∧ pieces_alternate true (re_split_digits text "" false) = true.
Proof.
  split; [apply (join_re_split_digits text "" false)|].
  destruct (re_split_digits_pieces text "" false) as [Halt Hodd]; [done|].
  by split.
Qed.

Lemma lower_char_digit (c : ascii) : Py.is_digit (Py.lower_char c) = Py.is_digit c.
Proof. destruct c as [[] [] [] [] [] [] [] []]; reflexivity. Qed.

Lemma lower_char_idemp (c : ascii) :
  Py.lower_char (Py.lower_char c) = Py.lower_char c.
Proof. destruct c as [[] [] [] [] [] [] [] []]; reflexivity. Qed.

Lemma lower_char_of_digit (c : ascii) :
  Py.is_digit c = true → Py.lower_char c = c.
Proof. destruct c as [[] [] [] [] [] [] [] []]; (reflexivity || discriminate). Qed.

Lemma lower_idemp (s : string) : Py.lower (Py.lower s) = Py.lower s.
Proof. induction s as [|c s IH]; simpl; [done|]. by rewrite lower_char_idemp, IH. Qed.

Lemma lower_app (s t : string) : Py.lower (s +:+ t) = Py.lower s +:+ Py.lower t.
Proof.
  induction s as [|c s IH]; [done|].
  rewrite string_app_cons. simpl. by rewrite IH.
Qed.

Lemma lower_all_digits (s : string) : all_digits s = true → Py.lower s = s.
Proof.
  induction s as [|c s IH]; [done|]. simpl.
  intros [Hc Hs]%andb_prop. by rewrite lower_char_of_digit, IH.
Qed.

Lemma all_digits_lower (s : string) : all_digits (Py.lower s) = all_digits s.
Proof. induction s as [|c s IH]; simpl; [done|]. by rewrite lower_char_digit, IH. Qed.

Lemma isdigit_lower (s : string) : isdigit (Py.lower s) = isdigit s.
Proof.
  destruct s as [|c s]; [done|].
  change (all_digits (Py.lower (String c s)) = all_digits (String c s)).
  apply all_digits_lower.
Qed.

Lemma chunk_of_lower (t : string) : chunk_of (Py.lower t) = chunk_of t.
Proof.
  unfold chunk_of. rewrite isdigit_lower.
  destruct (isdigit t) eqn:E.
  - rewrite lower_all_digits; [done|]. by destruct t.
  - by rewrite lower_idemp.
Qed.

Lemma re_split_digits_lower (s cur : string) (in_match : bool) :
  re_split_digits (Py.lower s) (Py.lower cur) in_match =
  Py.lower <$> re_split_digits s cur in_match.
Proof.
  revert cur in_match. induction s as [|c s IH]; intros cur in_match.
  - by destruct in_match.
  - simpl. rewrite lower_char_digit.
    destruct (Py.is_digit c), in_match; simpl;
      rewrite <- ?IH, ?lower_app; done.
Qed.

Lemma natural_sort_key_lower (text : string) :
  natural_sort_key (Py.lower text) = natural_sort_key text.
Proof.
  unfold natural_sort_key.
  change (re_split_digits (Py.lower text) "" false)
    with (re_split_digits (Py.lower text) (Py.lower "") false).
  rewrite (re_split_digits_lower text "" false), <- list_fmap_compose.
  apply list_fmap_ext. intros _ t _. apply chunk_of_lower.
Qed.

Lemma key_lt_irrefl (b : bool) (k : list chunk) :
  alternating b k = true → key_lt k k = Some false.
Proof.
  revert b. induction k as [|a k IH]; intros b H; [done|].
  rewrite key_lt_cons_eq. eapply IH, alternating_tail, H.
Qed.

Lemma name_lt_same_key (x y : path) :
  natural_sort_key (path_name x) = natural_sort_key (path_name y) →
  name_lt x y = false.
Proof.
  intros E. unfold name_lt. rewrite E.
  by rewrite (key_lt_irrefl true _ (natural_sort_key_alternating _)).
Qed.

(** X2: the Name sort ignores letter case altogether: two names that are
    equal once lowered have the same sort key, so neither of the two
    files sorts before the other (and the sort, being stable, keeps them
    in listing order). *)
Theorem natural_sort_key_ignores_case (x y : path) :
  Py.lower (path_name x) = Py.lower (path_name y) →
  natural_sort_key (path_name x) = natural_sort_key (path_name y)
  ∧ name_lt x y = false ∧ name_lt y x = false.
Proof.
  intros E.
  assert (natural_sort_key (path_name x) = natural_sort_key (path_name y)) as Hk.
  { by rewrite <- (natural_sort_key_lower (path_name x)), E,
      natural_sort_key_lower. }
  split; [done|]. split; by apply name_lt_same_key.
Qed.

Lemma natural_sort_key_ignores_case_witness :
  natural_sort_key (path_name "d/Frame1.PNG") =
    natural_sort_key (path_name "d/frame1.png")
  ∧ name_lt "d/Frame1.PNG" "d/frame1.png" = false
  ∧ name_lt "d/frame1.png" "d/Frame1.PNG" = false.
Proof.
  apply (natural_sort_key_ignores_case "d/Frame1.PNG" "d/frame1.png").
  reflexivity.
Defined.

Lemma all_digits_zeros (k : nat) : all_digits (Py.zeros k) = true.
Proof. induction k; simpl; [done|]. done. Qed.

(** X3: a run of digits counts by its value, so zeros in front of it do
    not matter: a name made of text, a number and text has the same sort
    key whatever the number of leading zeros of the number (frame7.png
    and frame007.png are tied). *)
Theorem natural_sort_key_leading_zeros (t d e : string) (k : nat) :
  no_digits t = true → isdigit d = true → no_digits e = true →
  natural_sort_key (t +:+ (Py.zeros k +:+ d) +:+ e) =
  natural_sort_key (t +:+ d +:+ e).
Proof.
  intros Ht Hd He.
  assert (isdigit (Py.zeros k +:+ d) = true) as Hzd.
  { destruct d as [|c d]; [done|]. simpl in Hd.
    destruct k as [|k]; [by rewrite string_app_nil_l|].
    change (all_digits (Py.zeros (S k) +:+ String c d) = true).
    rewrite all_digits_app, all_digits_zeros. done. }
  rewrite !natural_sort_key_framed by done.
  by rewrite int_of_digits_zeros.
Qed.

Lemma natural_sort_key_leading_zeros_witness :
  natural_sort_key ("frame" +:+ (Py.zeros 2 +:+ "7") +:+ ".png") =
  natural_sort_key ("frame" +:+ "7" +:+ ".png").
Proof.
  apply (natural_sort_key_leading_zeros "frame" "7" ".png" 2); reflexivity.
Defined.

Lemma key_lt_total (b : bool) (k1 k2 : list chunk) :
  alternating b k1 = true → alternating b k2 = true →
  key_lt k1 k2 = Some true ∨ key_lt k2 k1 = Some true ∨ k1 = k2.
Proof.
  revert b k2. induction k1 as [|a k1 IH]; intros b [|c k2] H1 H2; auto.
  destruct (decide (a = c)) as [->|Hne].
  - rewrite !key_lt_cons_eq.
    destruct (IH (negb b) k2) as [?|[?| ->]]; eauto using alternating_tail.
  - rewrite !key_lt_cons_ne by done.
    destruct (chunk_lt_total a c) as [?|?]; auto.
    eapply alternating_head_comparable; eauto.
Qed.

Lemma name_lt_trans (x y z : path) :
  name_lt x y = true → name_lt y z = true → name_lt x z = true.
Proof.
  intros Hxy Hyz. apply name_lt_true. apply name_lt_true in Hxy as Hxy'.
  destruct (key_lt_cotrans true (natural_sort_key (path_name y))
              (natural_sort_key (path_name z)) (natural_sort_key (path_name x))
              (natural_sort_key_alternating _) (natural_sort_key_alternating _)
              (natural_sort_key_alternating _) Hxy') as [H|H]; [|done].
  apply name_lt_true in H. apply name_lt_asym in H. congruence.
Qed.

(** X4: the order of the Name sort is a strict weak order on file
    names: no name is before itself, the order is transitive, and two
    names of which neither is before the other have the same sort key.
    So the comparisons [list.sort] makes are consistent whatever the
    names. *)
Theorem name_lt_strict_weak_order :
  (∀ x, name_lt x x = false)
  ∧ (∀ x y z, name_lt x y = true → name_lt y z = true → name_lt x z = true)
  ∧ (∀ x y, name_lt x y = false → name_lt y x = false →
       natural_sort_key (path_name x) = natural_sort_key (path_name y)).
Proof.
  split; [|split].
  - intros x. by apply name_lt_same_key.
  - apply name_lt_trans.
  - intros x y Hxy Hyx.
    destruct (key_lt_total true (natural_sort_key (path_name x))
                (natural_sort_key (path_name y))
                (natural_sort_key_alternating _) (natural_sort_key_alternating _))
      as [H|[H|H]]; [| |done]; apply name_lt_true in H; congruence.
Qed.

Lemma name_lt_strict_weak_order_witness :
  name_lt "d/a2.png" "d/a10.png" = true
  ∧ natural_sort_key (path_name "d/A1.png") =
    natural_sort_key (path_name "d/a01.png").
Proof.
  destruct name_lt_strict_weak_order as (_ & Htrans & Htie). split.
  - apply (Htrans "d/a2.png" "d/a3.png" "d/a10.png")%string; reflexivity.
  - apply (Htie "d/A1.png" "d/a01.png")%string; reflexivity.
Defined.

Lemma stable_sort_sorted_input (lt : path → path → bool) (l : list path) :
  StronglySorted (not_before lt) l → stable_sort lt l = l.
Proof.
  induction 1 as [|x l Hl IH Hx]; [done|]. simpl. rewrite IH.
  destruct l as [|y l']; [done|]. simpl.
  apply Forall_cons in Hx as [Hy _]. unfold not_before in Hy. by rewrite Hy.
Qed.

(** X5: the Name sort changes nothing in a listing that is already in
    natural order, ties included (it is stable), and sorting twice is
    the same as sorting once. *)
Theorem sort_by_name_sorted_input (l : list path) :
  (StronglySorted (not_before name_lt) l → sort_by_name l = l)
  ∧ sort_by_name (sort_by_name l) = sort_by_name l.
Proof.
  split.
  - apply stable_sort_sorted_input.
  - apply stable_sort_sorted_input, sort_by_name_StronglySorted.
Qed.

Lemma sort_by_name_sorted_input_witness :
  sort_by_name ["d/a1.png"; "d/A01.png"; "d/a2.png"]%string =
  ["d/a1.png"; "d/A01.png"; "d/a2.png"]%string.
Proof.
  destruct (sort_by_name_sorted_input
              ["d/a1.png"; "d/A01.png"; "d/a2.png"]%string) as [H _].
  apply H. repeat first [reflexivity | constructor].
Defined.

(** ** [detect_collisions] and [plan_renames] together *)


Lemma plan_renames_cons f png_files basename start_index zero_padding
    prefix suffix plan :
  plan_renames (f :: png_files) basename start_index zero_padding prefix suffix
    = Ok plan →
  plan = plan_loop 0 (f :: png_files) basename start_index
           (if zero_padding =? 0
            then Z.of_nat (String.length
                   (Py.str (start_index
                            + Z.of_nat (length (f :: png_files)) - 1)))
            else zero_padding) prefix suffix.
Proof.
  unfold plan_renames. destruct (String.eqb (Py.strip basename) ""); [done|].
  by intros [= <-].
Qed.





(** ** Padding *)

Lemma zeros_length (k : nat) : String.length (Py.zeros k) = k.
Proof. induction k; simpl; congruence. Qed.

Lemma zfill_length (s : string) (width : Z) :
  Z.of_nat (String.length (Py.zfill s width)) =
  Z.max (Z.of_nat (String.length s)) width.
Proof.
  unfold Py.zfill. destruct (width <=? Z.of_nat (String.length s)) eqn:E.
  - apply Z.leb_le in E. lia.
  - apply Z.leb_gt in E.
    destruct s as [|c r].
    + rewrite zeros_length. simpl in *. lia.
    + destruct (Ascii.eqb c "+" || Ascii.eqb c "-")%bool.
      * simpl. rewrite string_length_app, zeros_length. simpl in E. lia.
      * rewrite string_length_app, zeros_length. simpl in *. lia.
Qed.

(** X8: zero padding never truncates and never changes the number:
    whatever the width, zero or negative included, the padded numeral of
    an integer reads back as that integer, and its length is the larger
    of the width and the length of the plain numeral. *)
Theorem zfill_str_roundtrip (n width : Z) :
  parse_int (Py.zfill (Py.str n) width) = n
  ∧ Z.of_nat (String.length (Py.zfill (Py.str n) width)) =
    Z.max (Z.of_nat (String.length (Py.str n))) width.
Proof. split; [apply parse_int_zfill | apply zfill_length]. Qed.

Lemma plan_loop_indices i files basename start width prefix suffix name :
  name ∈ (plan_loop i files basename start width prefix suffix).*2 →
  ∃ k, i ≤ k < i + Z.of_nat (length files) ∧
    name = prefix +:+ basename +:+ "_"
             +:+ Py.zfill (Py.str (start + k)) width +:+ suffix +:+ ".png".
Proof.
  revert i. induction files as [|f files IH]; intros i; simpl.
  - by intros ?%elem_of_nil.
  - intros [->|H]%elem_of_cons.
    + exists i. split; [lia|done].
    + destruct (IH _ H) as (k & ? & ->). exists k. split; [lia|done].
Qed.

(** X9: with a start index that is not negative, and a padding that is
    automatic (zero) or at least the number of digits of the last index,
    all the target names of a plan have the same length: the length of
    prefix, basename and suffix, plus the padding width, plus five for
    the underscore and the extension. *)
Theorem plan_renames_equal_lengths (png_files : list path) (basename : string)
    (start_index zero_padding : Z) (prefix suffix : string)
    (plan : list (path * string)) :
  let max_index := start_index + Z.of_nat (length png_files) - 1 in
  let width :=
    if zero_padding =? 0 then Z.of_nat (num_digits max_index)
    else zero_padding in
  0 ≤ start_index →
  Z.of_nat (num_digits max_index) ≤ width →
  plan_renames png_files basename start_index zero_padding prefix suffix
    = Ok plan →
  Forall (λ e, Z.of_nat (String.length e.2) =
               Z.of_nat (String.length prefix)
               + Z.of_nat (String.length basename)
               + width + Z.of_nat (String.length suffix) + 5) plan.
Proof.
  intros max_index width Hstart Hwidth Hplan.
  destruct png_files as [|f png_files].
  { unfold plan_renames in Hplan.
    destruct (String.eqb (Py.strip basename) ""); [done|].
    injection Hplan as <-. constructor. }
  apply plan_renames_cons in Hplan as ->.
  set (files := f :: png_files) in *.
  assert (0 ≤ max_index) as Hmax.
  { subst max_index files. simpl length. lia. }
  set (w0 := if zero_padding =? 0
             then Z.of_nat (String.length (Py.str max_index))
             else zero_padding).
  assert (w0 = width) as Hw0.
  { subst w0 width. destruct (zero_padding =? 0); [|done].
    rewrite str_length.
    by assert ((max_index <? 0) = false) as -> by (apply Z.ltb_ge; lia). }
  fold max_index. fold w0. rewrite Hw0.
  apply Forall_forall. intros [old name] Hin.
  apply (list_elem_of_fmap_2 snd) in Hin.
  apply plan_loop_indices in Hin as (k & Hk & Hname).
  simpl in Hname. subst name. cbn [snd].
  rewrite !string_length_app. simpl String.length.
  rewrite !Nat2Z.inj_add, zfill_length, str_length.
  assert ((start_index + k <? 0) = false) as -> by (apply Z.ltb_ge; lia).
  assert (num_digits (start_index + k) ≤ num_digits max_index)%nat.
  { apply num_digits_N_mono. subst max_index. lia. }
  simpl. lia.
Qed.

Lemma plan_renames_equal_lengths_witness :
  Forall (λ e, Z.of_nat (String.length e.2) = 0 + 5 + 3 + 0 + 5)
    [("d/a.png", "frame_098.png"); ("d/b.png", "frame_099.png");
     ("d/c.png", "frame_100.png")]%string.
Proof.
  apply (plan_renames_equal_lengths ["d/a.png"; "d/b.png"; "d/c.png"]%string
           "frame" 98 0 "" "").
  - lia.
  - vm_compute. discriminate.
  - reflexivity.
Defined.

(** ** [two_phase_rename] moves contents *)






(** X11: when every file of the plan already has its target name,
    [two_phase_rename] returns the empty list and changes nothing: it
    renames no file and does not read the clock, whatever the operating
    system would refuse.  The empty plan is one such plan. *)
Theorem two_phase_rename_all_named (clock : nat → datetime)
    (denied : syscall → bool) (renames : list (path * string))
    (folder : path) (w : world) :
  Forall (λ e, path_name e.1 = e.2) renames →
  two_phase_rename clock denied renames folder w = (Ok [], w).
Proof.
  intros Hall. unfold two_phase_rename.
  assert (∀ acc, stage_loop clock denied renames folder acc w = (None, acc, w))
    as ->; [|done].
  induction Hall as [|[old new] rest Hx _ IH]; intros acc; [done|].
  simpl in *. rewrite (proj2 (String.eqb_eq _ _) Hx). apply IH.
Qed.

Lemma two_phase_rename_all_named_witness :
  two_phase_rename clock_tick (deny_rename_of "d/a.png")
    [("d/a.png", "a.png"); ("e/b.png", "b.png")]%string "d" two_images =
  (Ok [], two_images).
Proof.
  apply two_phase_rename_all_named. repeat constructor.
Defined.

(** ** The ledger: [write_log] then [undo_from_log] *)




(** X13: an undo runs once.  When [undo_from_log] returns, the ledger
    file is gone, so a second call on the same path raises
    [FileNotFoundError("Log file not found")] and changes nothing. *)
Theorem undo_from_log_once (denied denied' : syscall → bool) (log : path)
    (w w' : world) (undone : list (path * path)) :
  undo_from_log denied log w = (Ok undone, w') →
  files w' !! log = None
  ∧ undo_from_log denied' log w' =
    (Raise (FileNotFoundError "Log file not found"), w').
Proof.
  intros Hrun.
  assert (files w' !! log = None) as Hnone.
  { revert Hrun. unfold undo_from_log.
    destruct (negb (path_exists log w)); [done|].
    destruct (undo_body denied log w) as [[u|e] w2] eqn:Hb; [|done].
    intros [= <- <-]. revert Hb. unfold undo_body.
    destruct (denied (SysOpenRead log)); [done|].
    destruct (files w !! log) as [[|rows]|]; [done| |done].
    destruct (match rows with [] => _ | _ => _ end) as [[u'|e] w1]; [|done].
    unfold os_remove. destruct (files w1 !! log); [|done].
    destruct (denied (SysRemove log)); [done|].
    intros [= <- <-]. simpl. apply lookup_delete_eq. }
  split; [done|]. unfold undo_from_log, path_exists.
  rewrite bool_decide_eq_false_2; [done|].
  rewrite Hnone. by intros [? ?].
Qed.

Lemma undo_from_log_once_witness :
  let w := (write_log clock_tick allow_all [("d/x.png", "d/a.png")]%string
              "d/rename_log.csv" two_images).2 in
  let w' := (undo_from_log allow_all "d/rename_log.csv" w).2 in
  files w' !! "d/rename_log.csv"%string = None
  ∧ undo_from_log (deny_rename_of "d/a.png") "d/rename_log.csv" w' =
    (Raise (FileNotFoundError "Log file not found"), w').
Proof.
  intros w w'.
  apply (undo_from_log_once allow_all _ _ w w'
           [("d/a.png", "d/x.png")]%string).
  reflexivity.
Defined.

Lemma dict_of_row_no_column fieldnames row key :
  key ∉ fieldnames → dict_of_row fieldnames row !! key = None.
Proof.
  intros Hkey. unfold dict_of_row.
  assert (∀ (l : list string) (d : gmap string (option string)),
            key ∉ l → d !! key = None →
            foldl (λ d k, <[k := None]> d) d l !! key = None) as Hnone.
  { induction l as [|k l IH]; intros d Hl Hd; simpl; [done|].
    apply not_elem_of_cons in Hl as [? ?].
    apply IH; [done|]. by rewrite lookup_insert_ne. }
  assert (∀ (l : list (string * string)) (d : gmap string (option string)),
            key ∉ l.*1 → d !! key = None →
            foldl (λ d kv, <[kv.1 := Some kv.2]> d) d l !! key = None) as Hsome.
  { induction l as [|[k v] l IH]; intros d Hl Hd; simpl; [done|].
    rewrite fmap_cons in Hl. apply not_elem_of_cons in Hl as [? ?].
    apply IH; [done|]. by rewrite lookup_insert_ne. }
  apply Hnone.
  - intros [i Hi]%list_elem_of_lookup. apply Hkey.
    rewrite lookup_drop in Hi. by eapply list_elem_of_lookup_2.
  - apply Hsome; [|done].
    intros Hin. apply Hkey.
    apply list_elem_of_fmap in Hin as ([k v] & -> & Hin).
    by apply elem_of_zip_l in Hin.
Qed.

(** X14: a ledger without a [new_path] column cannot be undone.  When
    the header of the file has no field [new_path] and some record is
    not empty, [undo_from_log] raises "Failed to undo renames" with the
    [KeyError] of that column at the first such record; no file is
    renamed and the ledger stays. *)
Theorem undo_from_log_missing_column (denied : syscall → bool) (log : path)
    (w : world) (fieldnames : list string) (rows : list (list string)) :
  files w !! log = Some (Csv (fieldnames :: rows)) →
  denied (SysOpenRead log) = false →
  "new_path"%string ∉ fieldnames →
  Exists (λ row, row ≠ []) rows →
  undo_from_log denied log w =
  (Raise (WrappedException "Failed to undo renames" (KeyError "new_path")), w).
Proof.
  intros Hlog Hr Hcol Hrow.
  unfold undo_from_log, path_exists, undo_body.
  rewrite bool_decide_eq_true_2 by (by rewrite Hlog). simpl.
  rewrite Hr, Hlog.
  assert (undo_loop denied fieldnames rows [] w = (Raise (KeyError "new_path"), w))
    as ->; [|done].
  clear Hlog. generalize (@nil (path * path)).
  induction Hrow as [row rows Hne|row rows _ IH]; intros undone.
  - destruct row as [|c row]; [done|]. cbn [undo_loop].
    unfold row_paths, row_path.
    by rewrite (dict_of_row_no_column fieldnames (c :: row) _ Hcol).
  - destruct row as [|c row]; [apply IH|]. cbn [undo_loop].
    unfold row_paths, row_path.
    by rewrite (dict_of_row_no_column fieldnames (c :: row) _ Hcol).
Qed.

Lemma undo_from_log_missing_column_witness :
  let w := {| files := {[ "d/log.csv"%string :=
                          Csv [["from"; "to"]; []; ["d/a.png"; "d/b.png"]]%string ]};
              ticks := 0; history := [] |} in
  undo_from_log allow_all "d/log.csv" w =
  (Raise (WrappedException "Failed to undo renames" (KeyError "new_path")), w).
Proof.
  intros w.
  apply (undo_from_log_missing_column allow_all "d/log.csv" w
           ["from"; "to"]%string [[]; ["d/a.png"; "d/b.png"]]%string).
  - reflexivity.
  - reflexivity.
  - set_unfold. intuition discriminate.
  - apply Exists_cons_tl, Exists_cons_hd. discriminate.
Defined.

(** ** The listing: [get_png_files] *)

Lemma rfind_bounds c s : -1 ≤ rfind c s < Z.of_nat (String.length s).
Proof.
  induction s as [|a s IH]; simpl; [lia|].
  destruct (0 <=? rfind c s) eqn:E; [lia|].
  destruct (Ascii.eqb a c); lia.
Qed.

Lemma rfind_app c s e :
  contains_char c e = false →
  rfind c (s +:+ String c e) = Z.of_nat (String.length s).
Proof.
  intros He.
  assert (rfind c (String c e) = 0) as H0.
  { simpl. assert (rfind c e = -1) as ->.
    { induction e as [|a e IH]; [done|]. simpl.
      rewrite contains_char_cons in He. apply orb_false_iff in He as [Ha He].
      rewrite (IH He). simpl. by rewrite Ha. }
    simpl. by rewrite Ascii.eqb_refl. }
  induction s as [|a s IH].
  - by rewrite string_app_nil_l.
  - rewrite string_app_cons. cbn [rfind String.length]. rewrite IH.
    destruct (0 <=? Z.of_nat (String.length s)) eqn:E; [lia|].
    apply Z.leb_gt in E. lia.
Qed.

Lemma rfind_split c s :
  0 ≤ rfind c s →
  ∃ stem e,
    s = stem +:+ String c e
    ∧ Z.of_nat (String.length stem) = rfind c s
    ∧ contains_char c e = false.
Proof.
  induction s as [|a s IH]; simpl; [lia|].
  destruct (0 <=? rfind c s) eqn:E.
  - intros _. apply Z.leb_le in E.
    destruct (IH E) as (stem & e & Hs & Hlen & He).
    exists (String a stem), e. rewrite string_app_cons.
    split; [by rewrite <- Hs|]. split; [simpl; lia|done].
  - apply Z.leb_gt in E. destruct (Ascii.eqb a c) eqn:Ea; [|lia].
    intros _. apply Ascii.eqb_eq in Ea as ->.
    exists ""%string, s. rewrite string_app_nil_l.
    split; [done|]. split; [done|].
    pose proof (rfind_bounds c s) as Hb.
    assert (rfind c s = -1) as Hn by lia. clear E Hb IH.
    induction s as [|a s IH]; [done|].
    rewrite contains_char_cons. simpl in Hn.
    destruct (0 <=? rfind c s) eqn:E.
    + apply Z.leb_le in E. lia.
    + destruct (Ascii.eqb a c); [lia|]. simpl. apply IH.
      pose proof (rfind_bounds c s). apply Z.leb_gt in E. lia.
Qed.

Lemma drop_chars_app s t : drop_chars (String.length s) (s +:+ t) = t.
Proof.
  induction s as [|a s IH].
  - rewrite string_app_nil_l. by destruct t.
  - cbn [String.length]. rewrite string_app_cons. apply IH.
Qed.

Lemma lower_char_dot c : Py.lower_char c = "."%char → c = "."%char.
Proof.
  destruct c as [[] [] [] [] [] [] [] []]; vm_compute; congruence.
Qed.

Lemma lower_char_not_dot c :
  Py.lower_char c ≠ "."%char → Ascii.eqb c "." = false.
Proof.
  intros H. apply Ascii.eqb_neq. by intros ->.
Qed.

(** An extension that reads [.png] in lower case is a dot followed by
    three characters that are no dots. *)
Lemma lower_png ext :
  Py.lower ext = ".png"%string →
  ∃ e, ext = String "." e
       ∧ String.length e = 3%nat
       ∧ contains_char "." e = false.
Proof.
  destruct ext as [|c0 [|c1 [|c2 [|c3 [|c4 ext]]]]]; try done.
  simpl. intros [= H0 H1 H2 H3].
  apply lower_char_dot in H0 as ->. eexists. split; [done|]. split; [done|].
  rewrite !contains_char_cons.
  rewrite !lower_char_not_dot; [done|..]; congruence.
Qed.

(** X15: which names [get_png_files] takes for PNG files.  The suffix of
    a path reads [.png] in lower case exactly when the final component is
    a non-empty stem followed by an extension that reads [.png] in lower
    case ([.PNG], [.Png], ...): a file named [.png] alone has no suffix
    and is left out. *)
Theorem path_suffix_png (p : path) :
  Py.lower (path_suffix p) = ".png"%string
  ↔ ∃ stem ext,
      path_name p = stem +:+ ext
      ∧ stem ≠ ""%string
      ∧ Py.lower ext = ".png"%string.
Proof.
  unfold path_suffix. split.
  - destruct (0 <? rfind "." (path_name p)) eqn:E1; [|done].
    destruct (rfind "." (path_name p) <? _) eqn:E2; [|done]. simpl.
    apply Z.ltb_lt in E1.
    destruct (rfind_split "." (path_name p)) as (stem & e & Hs & Hlen & He);
      [lia|].
    rewrite <- Hlen, Nat2Z.id. rewrite Hs at 1. rewrite drop_chars_app.
    intros Hl. exists stem, (String "." e). split; [done|]. split; [|done].
    intros ->. simpl in Hlen. lia.
  - intros (stem & ext & -> & Hstem & Hl).
    destruct (lower_png _ Hl) as (e & -> & Hlen & He).
    rewrite (rfind_app _ _ _ He), string_length_app. simpl. rewrite Hlen.
    assert (0 < String.length stem)%nat by (destruct stem; [done|simpl; lia]).
    rewrite (proj2 (Z.ltb_lt _ _)) by lia.
    rewrite (proj2 (Z.ltb_lt _ _)) by lia.
    simpl. by rewrite Nat2Z.id, drop_chars_app.
Qed.


Lemma sort_keys_ok key (l : list path) :
  Forall (λ p, ∃ t, key p = Ok t) l → ∃ ks, sort_keys key l = Ok ks.
Proof.
  induction 1 as [|p l [t Ht] _ [ks IH]]; simpl; [by eexists|].
  rewrite Ht, IH. by eexists.
Qed.

Lemma sort_keys_raise key (l : list path) p e :
  p ∈ l → key p = Raise e → ∃ e', sort_keys key l = Raise e'.
Proof.
  intros Hin Hp. induction Hin as [p l|p q l _ IH]; simpl.
  - rewrite Hp. by eexists.
  - destruct (key q); [|by eexists].
    destruct (IH Hp) as [e' ->]. by eexists.
Qed.

Lemma time_lt_asym key x y : time_lt key x y = true → time_lt key y x = false.
Proof.
  unfold time_lt. destruct (key x), (key y); try done.
  intros H%Z.ltb_lt. apply Z.ltb_ge. lia.
Qed.

(** The stable sort keeps the files of one time stamp in their order. *)
Lemma stable_sort_stamped key t (l : list path) :
  List.filter (stamped key t) (stable_sort (time_lt key) l)
  = List.filter (stamped key t) l.
Proof.
  induction l as [|x l IH]; [done|].
  cbn [stable_sort foldr]. fold (stable_sort (time_lt key) l).
  cbn [List.filter]. rewrite <- IH.
  generalize (stable_sort (time_lt key) l). clear IH l.
  induction l as [|y l IH]; [done|]. cbn [insert_by].
  destruct (time_lt key y x) eqn:E; [|done].
  cbn [List.filter]. rewrite IH. cbn [List.filter].
  assert (stamped key t y && stamped key t x = false) as Hne.
  { unfold time_lt in E. unfold stamped.
    destruct (key y) as [a|]; [|done]. destruct (key x) as [b|]; [|done].
    apply Z.ltb_lt in E.
    destruct (a =? t) eqn:Ea, (b =? t) eqn:Eb; try done.
    apply Z.eqb_eq in Ea, Eb. lia. }
  by destruct (stamped key t y), (stamped key t x).
Qed.

Lemma stable_sort_by_time key (l : list path) :
  Forall (λ p, ∃ t, key p = Ok t) l →
  StronglySorted (λ x y, ∃ a b, key x = Ok a ∧ key y = Ok b ∧ a ≤ b)
    (stable_sort (time_lt key) l).
Proof.
  intros Hok.
  assert (Forall (λ p, ∃ t, key p = Ok t) (stable_sort (time_lt key) l)) as Hok'.
  { eapply Permutation_Forall; [|exact Hok].
    symmetry. apply stable_sort_Permutation. }
  assert (Sorted (not_before (time_lt key)) (stable_sort (time_lt key) l)) as Hs.
  { apply stable_sort_Sorted, time_lt_asym. }
  revert Hok' Hs. generalize (stable_sort (time_lt key) l). clear.
  intros l Hok Hs.
  apply Sorted_StronglySorted.
  { intros x y z (a & b & Hx & Hy & Hab) (b' & c & Hy' & Hz & Hbc).
    exists a, c. split; [done|]. split; [done|].
    rewrite Hy in Hy'. injection Hy' as <-. lia. }
  induction Hs as [|x l Hs IH Hhd]; [constructor|].
  apply Forall_cons in Hok as [[a Ha] Hok].
  constructor; [by apply IH|].
  destruct Hhd as [|y l Hxy]; constructor.
  apply Forall_cons in Hok as [[b Hb] _].
  exists a, b. split; [done|]. split; [done|].
  unfold not_before, time_lt in Hxy. rewrite Ha, Hb in Hxy.
  by apply Z.ltb_ge in Hxy.
Qed.

Lemma time_key_spec v mode key :
  time_key v mode = Some key →
  String.eqb mode "Name" = false
  ∧ ((String.eqb mode "Modified" = true ∧ key = st_mtime v)
     ∨ (String.eqb mode "Modified" = false
        ∧ String.eqb mode "Created" = true ∧ key = st_ctime v)).
Proof.
  unfold time_key.
  destruct (String.eqb mode "Modified") eqn:E1.
  - apply String.eqb_eq in E1 as ->. intros [= <-]. split; [done|]. by left.
  - destruct (String.eqb mode "Created") eqn:E2; [|done].
    apply String.eqb_eq in E2 as ->. intros [= <-]. split; [done|]. by right.
Qed.

(** How [get_png_files] ends in a mode that sorts by a time stamp. *)
Lemma get_png_files_time v folder mode key names :
  folder_exists v = true → folder_is_dir v = true →
  iterdir v = Ok names →
  time_key v mode = Some key →
  get_png_files v folder mode =
  match sort_by_time key
          (List.filter (is_png_file v) ((λ name, folder // name) <$> names)) with
  | Ok sorted => sorted
  | Raise _ => []
  end.
Proof.
  intros He Hd Hi Hk. unfold get_png_files. rewrite He, Hd, Hi. simpl.
  apply time_key_spec in Hk as [-> [[-> ->]|(-> & -> & ->)]]; done.
Qed.

(** The result is empty or a rearrangement of the PNG files of the
    listing. *)
Lemma get_png_files_listing (v : folder_view) (folder : path)
    (sort_mode : string) :
  get_png_files v folder sort_mode = []
  ∨ ∃ names,
      iterdir v = Ok names
      ∧ get_png_files v folder sort_mode
        ≡ₚ List.filter (is_png_file v) ((λ name, folder // name) <$> names).
Proof.
  unfold get_png_files.
  destruct (negb (folder_exists v) || negb (folder_is_dir v)); [by left|].
  destruct (iterdir v) as [names|e]; [|by left].
  destruct (String.eqb sort_mode "Name").
  { right. exists names. split; [done|]. apply sort_by_name_Permutation. }
  assert (∀ key l,
            match sort_by_time key l with Ok sorted => sorted | Raise _ => [] end
            = [] ∨
            match sort_by_time key l with Ok sorted => sorted | Raise _ => [] end
            ≡ₚ l) as Htime.
  { intros key l. unfold sort_by_time. destruct (sort_keys key l); [|by left].
    right. apply stable_sort_Permutation. }
  destruct (String.eqb sort_mode "Modified").
  { destruct (Htime (st_mtime v)
                (List.filter (is_png_file v) ((λ name, folder // name) <$> names)))
      as [->|H]; [by left|]. right. by exists names. }
  destruct (String.eqb sort_mode "Created").
  { destruct (Htime (st_ctime v)
                (List.filter (is_png_file v) ((λ name, folder // name) <$> names)))
      as [->|H]; [by left|]. right. by exists names. }
  right. by exists names.
Qed.

(** X16: [get_png_files] returns all or nothing.  Whatever the folder,
    the sort mode and the failures, the result is either the empty list
    or a rearrangement of all the entries of the listing that are regular
    files with a [.png] suffix (in any letter case): never a part of
    them, never a path that is not one of them. *)
Theorem get_png_files_all_or_nothing (v : folder_view) (folder : path)
    (sort_mode : string) :
  get_png_files v folder sort_mode = []
  ∨ ∃ names,
      iterdir v = Ok names
      ∧ get_png_files v folder sort_mode
        ≡ₚ List.filter (is_png_file v) ((λ name, folder // name) <$> names)
      ∧ ∀ p, p ∈ get_png_files v folder sort_mode
             ↔ ∃ name, name ∈ names
                       ∧ p = folder // name
                       ∧ is_file v p = true
                       ∧ Py.lower (path_suffix p) = ".png"%string.
Proof.
  destruct (get_png_files_listing v folder sort_mode)
    as [Hnil|(names & Hit & Hperm)]; [by left|].
  right. exists names. split; [done|]. split; [done|].
  intros p. rewrite Hperm, list_elem_of_In, filter_In, <- list_elem_of_In.
  rewrite list_elem_of_fmap. unfold is_png_file.
  rewrite andb_true_iff, String.eqb_eq. split.
  - intros [(name & -> & Hin) [Hfile Hsuf]]. by exists name.
  - intros (name & Hin & -> & Hfile & Hsuf). split; [by exists name|done].
Qed.

(** X17: the Modified and Created modes.  When the folder can be listed
    and [stat] succeeds on every PNG file, [get_png_files] returns all of
    them, ordered by the time stamp of the mode, oldest first, and files
    with the same time stamp stay in the order of the listing. *)
Theorem get_png_files_by_time (v : folder_view) (folder : path)
    (sort_mode : string) (key : path → result Z) (names : list string) :
  let png_files :=
    List.filter (is_png_file v) ((λ name, folder // name) <$> names) in
  let sorted := get_png_files v folder sort_mode in
  folder_exists v = true → folder_is_dir v = true →
  iterdir v = Ok names →
  time_key v sort_mode = Some key →
  Forall (λ p, ∃ t, key p = Ok t) png_files →
  sorted ≡ₚ png_files
  ∧ StronglySorted (λ x y, ∃ a b, key x = Ok a ∧ key y = Ok b ∧ a ≤ b) sorted
  ∧ ∀ t, List.filter (stamped key t) sorted
         = List.filter (stamped key t) png_files.
Proof.
  intros png_files sorted He Hd Hi Hk Hok. subst sorted.
  rewrite (get_png_files_time v folder sort_mode key names) by done.
  fold png_files. unfold sort_by_time.
  destruct (sort_keys_ok key png_files Hok) as [ks ->].
  split; [apply stable_sort_Permutation|].
  split; [by apply stable_sort_by_time|]. intros t. apply stable_sort_stamped.
Qed.

Lemma get_png_files_by_time_witness :
  get_png_files sample_folder "d" "Modified" ≡ₚ ["d/b.PNG"; "d/a.png"]%string
  ∧ StronglySorted
      (λ x y, ∃ a b, st_mtime sample_folder x = Ok a
                     ∧ st_mtime sample_folder y = Ok b ∧ a ≤ b)
      (get_png_files sample_folder "d" "Modified").
Proof.
  destruct (get_png_files_by_time sample_folder "d" "Modified"
              (st_mtime sample_folder)
              ["b.PNG"; "notes.txt"; ".png"; "a.png"; "old.png"]%string)
    as (Hperm & Hsorted & _); try reflexivity.
  - repeat constructor; by eexists.
  - split; [exact Hperm|exact Hsorted].
Defined.

(** X18: a failing [stat] empties the listing.  In the Modified and
    Created modes, when [stat] raises on one PNG file of the folder,
    [get_png_files] returns the empty list, as if the folder held no PNG
    file at all. *)
Theorem get_png_files_stat_failure (v : folder_view) (folder : path)
    (sort_mode : string) (key : path → result Z) (names : list string)
    (p : path) (e : exn) :
  iterdir v = Ok names →
  time_key v sort_mode = Some key →
  p ∈ List.filter (is_png_file v) ((λ name, folder // name) <$> names) →
  key p = Raise e →
  get_png_files v folder sort_mode = [].
Proof.
  intros Hi Hk Hin Hp.
  destruct (folder_exists v) eqn:He;
    [|by unfold get_png_files; rewrite He].
  destruct (folder_is_dir v) eqn:Hd;
    [|by unfold get_png_files; rewrite He, Hd].
  rewrite (get_png_files_time v folder sort_mode key names) by done.
  unfold sort_by_time.
  by destruct (sort_keys_raise key _ p e Hin Hp) as [e' ->].
Qed.

Lemma get_png_files_stat_failure_witness :
  get_png_files sample_folder "d" "Created" = [].
Proof.
  apply (get_png_files_stat_failure sample_folder "d" "Created"
           (st_ctime sample_folder)
           ["b.PNG"; "notes.txt"; ".png"; "a.png"; "old.png"]%string
           "d/a.png" PermissionError); try reflexivity.
  vm_compute. set_unfold. tauto.
Defined.




(** ** UpdateChecker *)

Lemma lstrip_char_repeat c n s :
  lstrip_char c (repeat_char c n +:+ s) = lstrip_char c s.
Proof.
  induction n as [|n IH]; cbn [repeat_char].
  - by rewrite string_app_nil_l.
  - rewrite string_app_cons. cbn [lstrip_char]. by rewrite Ascii.eqb_refl.
Qed.

Lemma lstrip_char_split c s :
  ∃ n, s = repeat_char c n +:+ lstrip_char c s.
Proof.
  induction s as [|a s [n IH]].
  - by exists 0%nat.
  - simpl. destruct (Ascii.eqb a c) eqn:E.
    + apply Ascii.eqb_eq in E as ->. exists (S n). cbn [repeat_char].
      by rewrite string_app_cons, <- IH.
    + exists 0%nat. cbn [repeat_char]. by rewrite string_app_nil_l.
Qed.

(** X20: what counts as an update.  [check_for_updates] reports no
    update exactly when the check failed or the tag of the latest
    release is [1.0.0] after any number of leading [v]; every other tag,
    that of an older release included, is reported as an update. *)
Theorem check_for_updates_available (response : result release) :
  available (check_for_updates response) = false
  ↔ (∃ e, response = Raise e)
    ∨ (∃ data n, response = Ok data
                 ∧ tag_name data = repeat_char "v" n +:+ "1.0.0").
Proof.
  destruct response as [data|e]; simpl.
  - rewrite negb_false_iff, String.eqb_eq. split.
    + intros H. right. destruct (lstrip_char_split "v" (tag_name data)) as [n Hn].
      exists data, n. split; [done|]. by rewrite Hn at 1; rewrite H.
    + intros [[e [=]]|(data' & n & [= <-] & ->)].
      by rewrite lstrip_char_repeat.
  - split; [|done]. intros _. left. by exists e.
Qed.

(** X21: the progress reported during a download.  For the block counts
    and sizes [urlretrieve] passes (none negative), the percentage given
    to the callback lies between 0 and 100, does not decrease as blocks
    arrive, and is 100 exactly when the blocks received cover the total
    size; without a callback or with an unknown total size (not
    positive) nothing is reported. *)
Theorem progress_hook_percent (callback : bool)
    (block_num block_num' block_size total_size : Z) :
  0 ≤ block_num ≤ block_num' → 0 ≤ block_size →
  match progress_hook callback block_num block_size total_size,
        progress_hook callback block_num' block_size total_size with
  | Some percent, Some percent' =>
      callback = true ∧ 0 < total_size
      ∧ 0 ≤ percent ≤ percent' ∧ percent' ≤ 100
      ∧ (percent = 100 ↔ total_size ≤ block_num * block_size)
  | None, None => callback = false ∨ total_size ≤ 0
  | _, _ => False
  end.
Proof.
  intros Hn Hs. unfold progress_hook.
  destruct callback; simpl; [|by left].
  destruct (0 <? total_size) eqn:E; [|right; by apply Z.ltb_ge].
  apply Z.ltb_lt in E. split; [done|]. split; [done|].
  assert (0 ≤ block_num * block_size * 100 / total_size) as H0.
  { apply Z.div_pos; nia. }
  assert (block_num * block_size * 100 / total_size
          ≤ block_num' * block_size * 100 / total_size) as Hmono.
  { apply Z.div_le_mono; nia. }
  split; [lia|]. split; [lia|].
  split.
  - intros Hp.
    assert (100 ≤ block_num * block_size * 100 / total_size) as H100 by lia.
    destruct (decide (total_size ≤ block_num * block_size)) as [|Hlt]; [done|].
    assert (block_num * block_size * 100 / total_size < 100); [|lia].
    apply Z.div_lt_upper_bound; nia.
  - intros Hge.
    assert (100 ≤ block_num * block_size * 100 / total_size); [|lia].
    apply Z.div_le_lower_bound; nia.
Qed.

Lemma progress_hook_percent_witness :
  match progress_hook true 3 8192 100000,
        progress_hook true 13 8192 100000 with
  | Some percent, Some percent' =>
      true = true ∧ 0 < 100000
      ∧ 0 ≤ percent ≤ percent' ∧ percent' ≤ 100
      ∧ (percent = 100 ↔ 100000 ≤ 3 * 8192)
  | None, None => true = false ∨ 100000 ≤ 0
  | _, _ => False
  end.
Proof.
  apply (progress_hook_percent true 3 13 8192 100000); lia.
Defined.

(** ** The application: Preview, Rename and Undo *)

Lemma plan_loop_sources i files basename start width prefix suffix :
  (plan_loop i files basename start width prefix suffix).*1 = files.
Proof.
  revert i. induction files as [|f files IH]; intros i; simpl; [done|].
  by rewrite IH.
Qed.

Lemma plan_renames_sources png_files basename start_index zero_padding
    prefix suffix plan :
  plan_renames png_files basename start_index zero_padding prefix suffix
    = Ok plan →
  plan.*1 = png_files ∧ NoDup plan.*2.
Proof.
  destruct png_files as [|f png_files].
  - unfold plan_renames. destruct (String.eqb (Py.strip basename) ""); [done|].
    intros [= <-]. split; [done|constructor].
  - intros ->%plan_renames_cons.
    split; [apply plan_loop_sources|apply plan_loop_NoDup].
Qed.

(** What [preview_renames] does, outcome by outcome. *)
Lemma preview_renames_cases v s w s' n :
  PNGRenamerGUI.preview_renames v s w = (s', n) →
  (s' = PNGRenamerGUI.set_preview_tree s []
   ∧ (∀ count, n ≠ PNGRenamerGUI.PreviewReady count)
   ∧ (∀ shown more, n ≠ PNGRenamerGUI.CollisionError shown more))
  ∨ ∃ start padding renames collisions,
      PNGRenamerGUI.start_index s = Ok start
      ∧ PNGRenamerGUI.zero_padding s = Ok padding
      ∧ get_png_files v (PNGRenamerGUI.folder_path s)
          (PNGRenamerGUI.sort_mode s) ≠ []
      ∧ plan_renames
          (get_png_files v (PNGRenamerGUI.folder_path s)
             (PNGRenamerGUI.sort_mode s))
          (Py.strip (PNGRenamerGUI.basename s)) start padding
          (PNGRenamerGUI.prefix s) (PNGRenamerGUI.suffix s) = Ok renames
      ∧ (detect_collisions renames (PNGRenamerGUI.folder_path s) w).1
        = collisions
      ∧ ((collisions ≠ []
          ∧ s' = PNGRenamerGUI.set_current_renames
                   (PNGRenamerGUI.set_preview_tree s []) renames
          ∧ n = PNGRenamerGUI.CollisionError
                  (take 10 (collision_message <$> collisions))
                  (length collisions - 10))
         ∨ (collisions = []
            ∧ s' = PNGRenamerGUI.set_preview_tree
                     (PNGRenamerGUI.set_current_renames
                        (PNGRenamerGUI.set_preview_tree s []) renames)
                     ((λ '(old_path, new_name), (path_name old_path, new_name))
                        <$> renames)
            ∧ n = PNGRenamerGUI.PreviewReady (length renames))).
Proof.
  unfold PNGRenamerGUI.preview_renames. cbn [PNGRenamerGUI.folder_path
    PNGRenamerGUI.basename PNGRenamerGUI.sort_mode PNGRenamerGUI.start_index
    PNGRenamerGUI.zero_padding PNGRenamerGUI.prefix PNGRenamerGUI.suffix
    PNGRenamerGUI.set_preview_tree].
  destruct (String.eqb (PNGRenamerGUI.folder_path s) "").
  { intros [= <- <-]. by left. }
  destruct (String.eqb (Py.strip (PNGRenamerGUI.basename s)) "").
  { intros [= <- <-]. by left. }
  destruct (get_png_files v _ _) as [|f png_files] eqn:Hpng.
  { intros [= <- <-]. by left. }
  destruct (PNGRenamerGUI.start_index s) as [start|e].
  2: { intros [= <- <-]. by left. }
  destruct (PNGRenamerGUI.zero_padding s) as [padding|e].
  2: { intros [= <- <-]. by left. }
  destruct (plan_renames _ _ _ _ _ _) as [renames|e] eqn:Hplan.
  2: { intros [= <- <-]. by left. }
  cbn [PNGRenamerGUI.set_current_renames PNGRenamerGUI.current_renames
       PNGRenamerGUI.folder_path].
  change (PNGRenamerGUI.folder_path (PNGRenamerGUI.set_preview_tree s []))
    with (PNGRenamerGUI.folder_path s).
  destruct (detect_collisions renames (PNGRenamerGUI.folder_path s) w)
    as [collisions w0] eqn:Hdet.
  intros H. right. exists start, padding, renames, collisions.
  split; [done|]. split; [done|]. split; [done|]. split; [done|].
  split; [by rewrite Hdet|].
  destruct collisions as [|c collisions]; injection H as <- <-.
  - right. by split.
  - left. by split.
Qed.




(** X23: a preview that reports collisions keeps the plan it rejects.
    After "Naming collisions detected", the rows of the preview are empty
    but [current_renames] holds the colliding plan, which is not empty;
    so the next confirmed Rename does not ask for a preview: it runs the
    two-phase rename on that plan.  The dialog lists at most ten of the
    collisions and counts the others. *)
Theorem preview_renames_rejected_plan (v : folder_view)
    (s s' : PNGRenamerGUI.app) (w : world) (shown : list string) (more : nat) :
  PNGRenamerGUI.preview_renames v s w
    = (s', PNGRenamerGUI.CollisionError shown more) →
  let renames := PNGRenamerGUI.current_renames s' in
  let collisions :=
    (detect_collisions renames (PNGRenamerGUI.folder_path s') w).1 in
  renames ≠ []
  ∧ renames.*1
    = get_png_files v (PNGRenamerGUI.folder_path s) (PNGRenamerGUI.sort_mode s)
  ∧ PNGRenamerGUI.preview_tree s' = []
  ∧ collisions ≠ []
  ∧ (length shown ≤ 10)%nat
  ∧ (length shown + more = length collisions)%nat
  ∧ ∀ clock denied w0,
      PNGRenamerGUI.execute_renames clock denied true s' w0
      = PNGRenamerGUI.execute_body clock denied s' w0.
Proof.
  intros H renames collisions. subst renames collisions.
  apply preview_renames_cases in H
    as [(_ & _ & H)|(start & padding & renames & collisions & _ & _ & Hne
                     & Hplan & Hdet & [(Hc & -> & [= -> ->])|(_ & _ & [=])])].
  { by destruct (H shown more). }
  simpl. rewrite Hdet.
  apply plan_renames_sources in Hplan as [Hsrc _].
  assert (renames ≠ []) as Hr.
  { intros ->. by rewrite <- Hsrc in Hne. }
  split; [done|]. split; [done|]. split; [done|]. split; [done|].
  rewrite length_take, length_fmap.
  split; [lia|]. split; [lia|].
  intros clock denied w0. unfold PNGRenamerGUI.execute_renames. simpl.
  by destruct renames.
Qed.

Lemma preview_renames_rejected_plan_witness :
  let s' := (PNGRenamerGUI.preview_renames renumbered_folder
               (PNGRenamerGUI.started "d") renumbered_files).1 in
  PNGRenamerGUI.current_renames s' ≠ []
  ∧ (PNGRenamerGUI.execute_renames clock_tick allow_all true s'
       renumbered_files).2 = Some (PNGRenamerGUI.RenameSucceeded 2).
Proof.
  intros s'.
  destruct (preview_renames_rejected_plan renumbered_folder
              (PNGRenamerGUI.started "d") s' renumbered_files
              ["Would overwrite existing file: frame_1.png"]%string 0)
    as (H1 & _ & _ & _ & _ & _ & H2); [reflexivity|].
  split; [exact H1|]. rewrite H2. reflexivity.
Defined.



(** X25: a Rename that succeeds.  When [execute_renames] announces
    success, the user had confirmed, the plan and the rows of the preview
    are cleared, and the ledger of the folder, [rename_log.csv], holds
    the header and one row per renamed file; so a second Rename does
    nothing but warn that no renames are planned, and Undo finds the
    ledger. *)
Theorem execute_renames_success (clock : nat → datetime)
    (denied : syscall → bool) (confirm : bool) (s s' : PNGRenamerGUI.app)
    (w w' : world) (count : nat) :
  PNGRenamerGUI.execute_renames clock denied confirm s w
    = (s', w', Some (PNGRenamerGUI.RenameSucceeded count)) →
  let log := PNGRenamerGUI.os_path_join (PNGRenamerGUI.folder_path s)
               "rename_log.csv" in
  confirm = true
  ∧ PNGRenamerGUI.current_renames s' = []
  ∧ PNGRenamerGUI.preview_tree s' = []
  ∧ PNGRenamerGUI.folder_path s' = PNGRenamerGUI.folder_path s
  ∧ PNGRenamerGUI.log_file_path s' = log
  ∧ (∃ rows, files w' !! log = Some (Csv (ledger_header :: rows))
             ∧ length rows = count)
  ∧ (∀ clock' denied' confirm' w0,
       PNGRenamerGUI.execute_renames clock' denied' confirm' s' w0
       = (s', w0, Some PNGRenamerGUI.NoRenamesPlanned))
  ∧ ∀ denied', PNGRenamerGUI.undo_renames denied' false s' w' = (s', w', None).
Proof.
  unfold PNGRenamerGUI.execute_renames.
  destruct (PNGRenamerGUI.current_renames s) as [|e l] eqn:E; [done|].
  destruct confirm; [|done]. simpl. unfold PNGRenamerGUI.execute_body.
  destruct (two_phase_rename _ _ _ _ _) as [[completed|e'] w1]; [|done].
  cbn [PNGRenamerGUI.set_log_file_path PNGRenamerGUI.log_file_path
       PNGRenamerGUI.folder_path].
  unfold write_log. destruct (denied _); [done|]. simpl.
  intros [= <- <- <-]. simpl.
  split; [done|]. split; [done|]. split; [done|]. split; [done|].
  split; [done|]. rewrite lookup_insert_eq.
  split; [eexists; split; [done|]; by rewrite length_fmap|].
  split; [done|]. intros denied'.
  unfold PNGRenamerGUI.undo_renames, path_exists. simpl.
  rewrite lookup_insert_eq. by rewrite bool_decide_eq_true_2.
Qed.

Lemma execute_renames_success_witness :
  let s := (PNGRenamerGUI.preview_renames two_images_view
              (PNGRenamerGUI.started "d") two_images).1 in
  let out := PNGRenamerGUI.execute_renames clock_tick allow_all true s
               two_images in
  PNGRenamerGUI.current_renames out.1.1 = []
  ∧ PNGRenamerGUI.log_file_path out.1.1 = "d/rename_log.csv"%string.
Proof.
  intros s out.
  destruct (execute_renames_success clock_tick allow_all true s out.1.1
              two_images out.1.2 2) as (_ & H1 & _ & _ & H2 & _); [reflexivity|].
  split; [exact H1|exact H2].
Defined.



(** ** When [two_phase_rename] succeeds *)

(** A file that phase 1 does not stage is still there after it. *)
Lemma stage_loop_keeps clock denied renames folder acc w temps w1 p :
  stage_loop clock denied renames folder acc w = (None, temps, w1) →
  is_Some (files w !! p) →
  p ∉ (filter (λ e, path_name e.1 ≠ e.2) renames).*1 →
  is_Some (files w1 !! p).
Proof.
  revert acc w. induction renames as [|[old new] rest IH]; intros acc w; simpl.
  { by intros [= _ <-]. }
  rewrite filter_cons. cbn [fst snd].
  destruct (String.eqb (path_name old) new) eqn:E; cbn [negb].
  { apply String.eqb_eq in E. rewrite decide_False by (by intros ?).
    apply IH. }
  apply String.eqb_neq in E. rewrite decide_True by done.
  rewrite fmap_cons. cbn [fst].
  destruct (os_rename _ _ _ _) as [[[]|e] w3] eqn:Hr; [|done].
  apply os_rename_ok in Hr as (f' & _ & Hfiles & _). simpl in Hfiles.
  intros Hrun H2 [Hne Hout]%not_elem_of_cons.
  eapply IH; [exact Hrun| |done]. rewrite Hfiles.
  match goal with |- is_Some (<[?k := _]> _ !! _) =>
    destruct (decide (k = p)) as [->|Hk] end.
  - by rewrite lookup_insert_eq.
  - by rewrite lookup_insert_ne, lookup_delete_ne.
Qed.

Lemma stage_loop_succeeds clock denied renames folder acc w :
  let staged := filter (λ e, path_name e.1 ≠ e.2) renames in
  (∀ c, denied c = false) →
  NoDup staged.*1 →
  (∀ old, old ∈ staged.*1 → is_Some (files w !! old)) →
  (∀ tp, tp ∈ temp_paths clock folder (ticks w) staged.*1 → tp ∉ staged.*1) →
  ∃ new_temps w1,
    stage_loop clock denied renames folder acc w = (None, acc ++ new_temps, w1)
    ∧ new_temps.*1 = temp_paths clock folder (ticks w) staged.*1
    ∧ ∀ tp, tp ∈ new_temps.*1 → is_Some (files w1 !! tp).
Proof.
  intros staged Hden. subst staged. revert acc w.
  induction renames as [|[old new] rest IH]; intros acc w Hnd Hex Htp.
  { exists [], w. simpl. rewrite app_nil_r. split; [done|]. split; [done|].
    by intros ? ?%elem_of_nil. }
  rewrite filter_cons in *. cbn [stage_loop fst snd] in *.
  destruct (String.eqb (path_name old) new) eqn:E; cbn [negb].
  { apply String.eqb_eq in E. rewrite decide_False in * by (by intros ?).
    by apply IH. }
  apply String.eqb_neq in E. rewrite decide_True in * by done.
  rewrite fmap_cons in *. cbn [fst temp_paths] in *.
  apply NoDup_cons in Hnd as [Hold Hnd].
  set (tp0 := folder // ("temp_" +:+ strftime_stamp (clock (ticks w)) +:+ "_"
                         +:+ path_name old)) in *.
  destruct (Hex old) as [f Hf]; [by left|].
  unfold datetime_now, os_rename. cbn [files ticks history].
  rewrite Hf, Hden.
  fold tp0.
  match goal with
  | |- context [stage_loop _ _ _ _ _ ?x] => set (w2 := x)
  end.
  assert (tp0 ≠ old) as Hne0.
  { intros Heq. apply (Htp tp0); [by left|]. rewrite Heq. by left. }
  destruct (IH (acc ++ [(tp0, new)]) w2) as (new_temps & w1 & Hrun & Hts & Hsome).
  - done.
  - intros old' Hin. simpl.
    destruct (decide (old' = tp0)) as [->|Hn]; [by rewrite lookup_insert_eq|].
    rewrite lookup_insert_ne, lookup_delete_ne; [|by intros ->|done].
    apply Hex. by right.
  - intros tp Hin Hin'. apply (Htp tp); by right.
  - exists ((tp0, new) :: new_temps), w1.
    split; [by rewrite Hrun, <- app_assoc|].
    split; [rewrite fmap_cons; simpl; by rewrite Hts|].
    rewrite fmap_cons. intros tp [->|Hin]%elem_of_cons; [|by apply Hsome].
    cbn [fst].
    eapply stage_loop_keeps; [exact Hrun| |].
    + simpl. by rewrite lookup_insert_eq.
    + intros Hin. apply (Htp tp0); [by left|by right].
Qed.

Lemma commit_loop_succeeds denied temps folder acc w :
  (∀ c, denied c = false) →
  NoDup temps.*1 →
  (∀ tp, tp ∈ temps.*1 → is_Some (files w !! tp)) →
  ∃ final w2, commit_loop denied temps folder acc w = (Ok final, w2).
Proof.
  intros Hden. revert acc w.
  induction temps as [|[tp new] temps IH]; intros acc w Hnd Hex.
  { by exists acc, w. }
  rewrite fmap_cons in *. cbn [fst commit_loop] in *.
  apply NoDup_cons in Hnd as [Htp Hnd].
  destruct (Hex tp) as [f Hf]; [by left|].
  unfold os_rename. rewrite Hf, Hden.
  apply IH; [done|]. intros tp' Hin. simpl.
  destruct (decide (tp' = folder // new)) as [->|Hn];
    [by rewrite lookup_insert_eq|].
  rewrite lookup_insert_ne, lookup_delete_ne; [|by intros ->|done].
  apply Hex. by right.
Qed.

(** X27: when [two_phase_rename] succeeds.  If the operating system
    refuses nothing, the files to rename (the entries that do not have
    their target name yet) are distinct and exist, and the temporary
    paths phase 1 gives them are pairwise distinct and none of them is
    the path of a file to rename, then [two_phase_rename] returns, with
    one pair per file to rename; the temporary paths are those of
    [temp_paths], one clock reading per file. *)
Theorem two_phase_rename_succeeds (clock : nat → datetime)
    (denied : syscall → bool) (renames : list (path * string))
    (folder : path) (w : world) :
  let staged := filter (λ e, path_name e.1 ≠ e.2) renames in
  let temps := temp_paths clock folder (ticks w) staged.*1 in
  (∀ c, denied c = false) →
  NoDup staged.*1 →
  (∀ old, old ∈ staged.*1 → is_Some (files w !! old)) →
  NoDup temps →
  (∀ tp, tp ∈ temps → tp ∉ staged.*1) →
  ∃ temp_names w1 final_renames w2,
    stage_loop clock denied renames folder [] w = (None, temp_names, w1)
    ∧ temp_names.*1 = temps
    ∧ commit_loop denied temp_names folder [] w1 = (Ok final_renames, w2)
    ∧ two_phase_rename clock denied renames folder w = (Ok final_renames, w2)
    ∧ final_renames.*2 = (λ e, folder // e.2) <$> staged.
Proof.
  intros staged temps Hden Hnd Hex HndT Hfresh.
  destruct (stage_loop_succeeds clock denied renames folder [] w)
    as (temp_names & w1 & Hstage & Hts & Hsome); [done..|].
  simpl in Hstage.
  destruct (commit_loop_succeeds denied temp_names folder [] w1)
    as (final & w2 & Hcommit); [done|by rewrite Hts|done|].
  exists temp_names, w1, final, w2.
  split; [done|]. split; [done|]. split; [done|].
  split; [unfold two_phase_rename; by rewrite Hstage, Hcommit|].
  apply stage_loop_targets in Hstage as (T1 & E1 & Htargets).
  apply commit_loop_finals in Hcommit as (F1 & E2 & Hfinals).
  simpl in E1, E2. subst T1 F1. fold staged in Htargets.
  by rewrite Hfinals, Htargets, <- !list_fmap_compose.
Qed.

Lemma two_phase_rename_succeeds_witness :
  ∃ final_renames w2,
    two_phase_rename clock_tick allow_all
      [("d/a.png", "b.png"); ("d/b.png", "a.png")]%string "d" two_images
    = (Ok final_renames, w2)
    ∧ final_renames.*2 = ["d/b.png"; "d/a.png"]%string.
Proof.
  destruct (two_phase_rename_succeeds clock_tick allow_all
              [("d/a.png", "b.png"); ("d/b.png", "a.png")]%string "d"
              two_images)
    as (temp_names & w1 & final & w2 & _ & _ & _ & Hrun & Hfinal).
  - done.
  - vm_compute. repeat constructor; set_unfold; intuition discriminate.
  - intros old Hin. vm_compute in Hin. set_unfold.
    destruct Hin as [Hin|[Hin|[]]]; rewrite Hin; by eexists.
  - vm_compute. repeat constructor; set_unfold; intuition discriminate.
  - intros tp Hin. vm_compute in Hin. vm_compute. set_unfold.
    destruct Hin as [Hin|[Hin|[]]]; rewrite Hin; intuition discriminate.
  - exists final, w2. split; [exact Hrun|exact Hfinal].
Defined.

(** ** Preview, then Rename *)












